(** * Images convertor: SVG <-> PNG/JPEG converter and path extractor

    A shallow embedding of the two React components of the repository
    ([src/src/App.tsx] and [src/unnamed/part_000]) and the properties of
    the raster-to-vector tracer, the path extractor and the artifact list
    that the specification states about them. *)

From Stdlib Require Import ZArith QArith Ascii String List Lia.
From Stdlib Require Import Decimal DecimalString.
From Stdlib.Strings Require Import Byte.
From stdpp Require Import base tactics option list gmap strings.

Local Open Scope Z_scope.

(** ** JavaScript values used by the components *)

Module Js.

(** The characters that a Rocq string literal cannot hold directly. *)
Definition dquote : string := String "034"%char EmptyString.
Definition newline : string := String "010"%char EmptyString.

(** [String(z)] for an integral Number: plain decimal digits with a leading
    minus sign (exact for every integer below 10^21 in magnitude, which
    covers canvas sizes and sample coordinates). *)
Definition show_Z (z : Z) : string := NilZero.string_of_int (Z.to_int z).

(** *** Printing the quotient [a / 255] of a byte

    [a / 255] is an IEEE double; template literals print it with the
    shortest decimal expansion that reads back as the same double.
    The double closest to [a / 255] is [m * 2^-(53+j)] with
    [2^52 <= m < 2^53]; both are computed exactly on integers. *)

Fixpoint binade_shift (fuel : nat) (a j : Z) : Z :=
  match fuel with
  | O => j
  | S fuel' => if 128 <=? a * 2 ^ j then j else binade_shift fuel' a (j + 1)
  end.

(** Round to nearest; a tie cannot occur since 255 is odd. *)
Definition mantissa (a j : Z) : Z :=
  let num := a * 2 ^ (j + 53) in
  let q := num / 255 in
  let r := num mod 255 in
  if 255 <? 2 * r then q + 1 else q.

(** The integer [s] for which [s / 10^p] is closest to the double. *)
Definition nearest_digits (m j p : Z) : Z :=
  (2 * m * 10 ^ p + 2 ^ (53 + j)) / 2 ^ (54 + j).

(** Does [s / 10^p] read back as the double [m * 2^-(53+j)]?  The rounding
    interval is closed exactly when the mantissa is even. *)
Definition reads_back (m j p s : Z) : bool :=
  let d := Z.abs (s * 2 ^ (54 + j) - 2 * m * 10 ^ p) in
  if Z.even m then d <=? 10 ^ p else d <? 10 ^ p.

Fixpoint shortest_digits (fuel : nat) (m j p : Z) : Z * Z :=
  match fuel with
  | O => (p, nearest_digits m j p)
  | S fuel' =>
      if reads_back m j p (nearest_digits m j p)
      then (p, nearest_digits m j p)
      else shortest_digits fuel' m j (p + 1)
  end.

Fixpoint zeros (n : nat) : string :=
  match n with
  | O => EmptyString
  | S n' => String "0"%char (zeros n')
  end.

Definition show_fraction (p s : Z) : string :=
  let ds := show_Z s in
  "0." +:+ zeros (Z.to_nat p - String.length ds) +:+ ds.

(** [String(a / 255)] for a byte [a]. *)
Definition show_div255 (a : Z) : string :=
  if a <=? 0 then "0"
  else if 255 <=? a then "1"
  else
    let j := binade_shift 8 a 0 in
    let m := mantissa a j in
    let '(p, s) := shortest_digits 20 m j 1 in
    show_fraction p s.

(** ASCII case mapping, the part of [toUpperCase] / [toLowerCase] that the
    components rely on (format tags and file extensions). *)
Definition upper_ascii (c : ascii) : ascii :=
  let n := nat_of_ascii c in
  if ((97 <=? n) && (n <=? 122))%nat then ascii_of_nat (n - 32) else c.

Definition lower_ascii (c : ascii) : ascii :=
  let n := nat_of_ascii c in
  if ((65 <=? n) && (n <=? 90))%nat then ascii_of_nat (n + 32) else c.

Fixpoint map_string (f : ascii -> ascii) (s : string) : string :=
  match s with
  | EmptyString => EmptyString
  | String c s' => String (f c) (map_string f s')
  end.

Definition toUpperCase : string -> string := map_string upper_ascii.
Definition toLowerCase : string -> string := map_string lower_ascii.

(** [s.replace(pat, by)] with a string pattern: only the first occurrence
    is replaced ([by] holds no dollar sign here). *)
Fixpoint replace_first (pat by_ s : string) : string :=
  if String.prefix pat s
  then by_ +:+ String.substring (String.length pat)
                                (String.length s - String.length pat) s
  else match s with
       | EmptyString => EmptyString
       | String c s' => String c (replace_first pat by_ s')
       end.

(** [s.endsWith(suffix)] *)
Definition endsWith (s suffix : string) : bool :=
  let n := String.length s in
  let k := String.length suffix in
  ((k <=? n)%nat && String.eqb (String.substring (n - k) k s) suffix).

End Js.

(** ** Pixel buffers *)

(** [ImageData]: [data] is the flat RGBA byte array ([Uint8ClampedArray]),
    row-major with the origin at the top left. *)
Record ImageData := mkImageData {
  data : list byte;
  img_width : Z;
  img_height : Z
}.

(** A sampled grid coordinate.  The source keys its [Set] by the string
    [x,y]; that encoding is injective on pairs of integers, so the set of
    keys is modelled as a set of pairs. *)
Definition point : Type := Z * Z.

(** [data[i]]: [None] stands for [undefined] (index outside the array). *)
Definition data_at (d : list byte) (i : Z) : option Z :=
  if i <? 0 then None
  else (fun b => Z.of_N (Byte.to_N b)) <$> d !! Z.to_nat i.

(** [(r + g + b) / 3]; [None] stands for [NaN], the value of the sum as
    soon as one channel is [undefined]. *)
Definition brightness (r g b : option Z) : option Q :=
  match r, g, b with
  | Some r, Some g, Some b => Some (Qmake (r + g + b) 3)
  | _, _, _ => None
  end.

(** Comparisons of Numbers; every comparison with [NaN] is false. *)
Definition num_lt (x : option Q) (t : Z) : bool :=
  match x with
  | Some q => negb (Qle_bool (inject_Z t) q)
  | None => false
  end.

Definition num_ge (x : option Q) (t : Z) : bool :=
  match x with
  | Some q => Qle_bool (inject_Z t) q
  | None => false
  end.

Definition num_gt (x : option Z) (t : Z) : bool :=
  match x with
  | Some v => t <? v
  | None => false
  end.

(** Template-literal rendering of a channel and of [a / 255]. *)
Definition show_channel (v : option Z) : string :=
  match v with
  | Some z => Js.show_Z z
  | None => "undefined"
  end.

Definition show_opacity (a : option Z) : string :=
  match a with
  | Some z => Js.show_div255 z
  | None => "NaN"
  end.

(** The values taken by [for (let v = 0; v < n; v += 4)]. *)
Definition stride4 (n : Z) : list Z :=
  (fun k => 4 * Z.of_nat k) <$> seq 0 (Z.to_nat ((n + 3) / 4)).

(** ** The host environment shared by both components *)

(** [interface ConvertedFile], declared identically in both files.  An
    object URL is an opaque handle; it is modelled by its serial number. *)
Definition object_url : Type := nat.

Record ConvertedFile := mkConverted {
  name : string;
  url : object_url;
  format : string
}.

(** The fields of a [File] that the components read. *)
Record File := mkFile {
  file_name : string;
  file_type : string
}.

(** The parameter type ['png' | 'jpeg']. *)
Inductive Format := Png | Jpeg.

Definition format_string (f : Format) : string :=
  match f with
  | Png => "png"
  | Jpeg => "jpeg"
  end.

Record Blob := mkBlob {
  blob_content : string;
  blob_type : string
}.

(** What a conversion does to the host, in order. *)
Inductive effect :=
| CreateObjectURL (u : object_url)
| RevokeObjectURL (u : object_url)
| FillWhite (w h : Z)
| DrawImage (w h : option Z)
| ToBlob (mime : string) (quality : Q)
| GetImageData (w h : Z)
| ConsoleError.

(** The part of the browser that the conversions touch: the store of live
    object URLs and the trace of the calls made so far. *)
Record Browser := mkBrowser {
  urls : gmap object_url Blob;
  next_url : object_url;
  log : list effect
}.

Definition emit (e : effect) (w : Browser) : Browser :=
  mkBrowser (urls w) (next_url w) (log w ++ [e]).

(** [URL.createObjectURL(blob)] hands out a handle never used before. *)
Definition createObjectURL (b : Blob) (w : Browser) : object_url * Browser :=
  let u := next_url w in
  (u, mkBrowser (<[u := b]> (urls w)) (S u) (log w ++ [CreateObjectURL u])).

Definition revokeObjectURL (u : object_url) (w : Browser) : Browser :=
  mkBrowser (delete u (urls w)) (next_url w) (log w ++ [RevokeObjectURL u]).

(** The handles that are still held. *)
Definition live (w : Browser) : gset object_url := dom (urls w).

(** *** The constructor [Image] *)

(** What the identifier [Image] denotes in a module: the constructor of the
    browser, or, in a module that imports [Image] from lucide-react, that
    icon component. *)
Inductive ImageBinding := BrowserImage | LucideIcon.

(** [new Image()].  The browser's constructor returns an image element.
    The icon is a forward-ref component, an object that cannot be
    constructed: the call raises a [TypeError] ([None]). *)
Definition new_Image (b : ImageBinding) : option unit :=
  match b with
  | BrowserImage => Some tt
  | LucideIcon => None
  end.

(** *** Documents *)

#[warnings="-register-all"]
Inductive Node :=
| Element (tag : string) (attrs : list (string * string)) (children : list Node)
| Text (content : string).

Definition tag_of (n : Node) : string :=
  match n with
  | Element t _ _ => t
  | Text _ => ""
  end.

(** The elements of a tree in document order (a node before its
    descendants, siblings left to right). *)
Fixpoint elements (n : Node) : list Node :=
  match n with
  | Element _ _ cs => n :: flat_map elements cs
  | Text _ => []
  end.

(** [doc.querySelectorAll(sel)] for a type selector. *)
Definition querySelectorAll (sel : string) (doc : Node) : list Node :=
  filter (fun n => tag_of n = sel) (elements doc).

Fixpoint assoc (k : string) (l : list (string * string)) : option string :=
  match l with
  | [] => None
  | (k', v) :: l' => if String.eqb k' k then Some v else assoc k l'
  end.

(** [el.getAttribute(attr)]; [None] stands for [null]. *)
Definition getAttribute (attr : string) (n : Node) : option string :=
  match n with
  | Element _ attrs _ => assoc attr attrs
  | Text _ => None
  end.

(** [Boolean(v)] for a value that is a string or [null]. *)
Definition truthy (v : option string) : bool :=
  match v with
  | Some s => negb (String.eqb s "")
  | None => false
  end.

(** [extractPaths], up to the call of [setExtractedPaths]; both files hold
    the same function.  [parse] is [DOMParser.parseFromString] at the
    type [image/svg+xml]; the cast [as string[]] drops nothing. *)
Definition extractPaths (parse : string -> Node) (svgContent : string)
    : list string :=
  let doc := parse svgContent in
  let paths := querySelectorAll "path" doc in
  let pathData := filter (fun v => truthy v = true) (getAttribute "d" <$> paths) in
  default "" <$> pathData.

(** ** The component of [src/unnamed/part_000] *)

Module Converter.

Inductive ConversionMode := SvgToRaster | RasterToSvg.

Record TraceSettings := mkTraceSettings {
  threshold : Z;
  simplify : bool;
  smoothing : Q
}.

(** The [useState] cells of the component. *)
Record AppState := mkApp {
  uploadedFile : option File;
  fileContent : string;
  convertedFiles : list ConvertedFile;
  extractedPaths : list string;
  quality : Q;
  width : Z;
  height : Z;
  isDragging : bool;
  isConverting : bool;
  conversionMode : ConversionMode;
  svgTraceSettings : TraceSettings
}.

(** *** [tracePath] *)

(** The locals of [tracePath] together with the shared [visited] set.
    The head of [stack] is the top of the JavaScript array (its last
    element); [points] is in push order. *)
Record trace_state := mkTrace {
  stack : list point;
  points : list point;
  visited : gset point
}.

(** The two nested [dx], [dy] loops, in push order. *)
Definition neighbors (x y : Z) : list point :=
  [ (x - 4, y - 4); (x - 4, y); (x - 4, y + 4);
    (x, y - 4); (x, y + 4);
    (x + 4, y - 4); (x + 4, y); (x + 4, y + 4) ].

Definition out_of_bounds (width height x y : Z) : bool :=
  (x <? 0) || (width <=? x) || (y <? 0) || (height <=? y).

Definition pixel_brightness (d : list byte) (width x y : Z) : option Q :=
  let index := (y * width + x) * 4 in
  brightness (data_at d index) (data_at d (index + 1)) (data_at d (index + 2)).

(** The loop test [stack.length > 0 && points.length < 50]. *)
Definition trace_cond (s : trace_state) : bool :=
  ((0 <? length (stack s)) && (length (points s) <? 50))%nat.

(** One pass through the body of the [while] loop. *)
Definition trace_iter (img : ImageData) (width height thr : Z)
    (s : trace_state) : trace_state :=
  match stack s with
  | [] => s
  | (x, y) :: rest =>
      if bool_decide ((x, y) ∈ visited s) || out_of_bounds width height x y
      then mkTrace rest (points s) (visited s)
      else if num_ge (pixel_brightness (data img) width x y) thr
      then mkTrace rest (points s) (visited s)
      else mkTrace (rev (neighbors x y) ++ rest)
                   (points s ++ [(x, y)])
                   ({[ (x, y) ]} ∪ visited s)
  end.

(** The [while] loop; [None] when the iteration budget runs out. *)
Fixpoint trace_loop (fuel : nat) (img : ImageData) (width height thr : Z)
    (s : trace_state) : option trace_state :=
  match fuel with
  | O => None
  | S fuel' =>
      if trace_cond s
      then trace_loop fuel' img width height thr (trace_iter img width height thr s)
      else Some s
  end.

(** Every pass lowers this quantity, so it is enough of a budget
    (see [trace_loop_enough]). *)
Definition trace_fuel (s : trace_state) : nat :=
  (8 * (50 - length (points s)) + length (stack s) + 1)%nat.

Definition show_point (p : point) : string :=
  Js.show_Z (fst p) +:+ " " +:+ Js.show_Z (snd p).

Fixpoint line_commands (ps : list point) : string :=
  match ps with
  | [] => ""
  | p :: ps' => " L " +:+ show_point p +:+ line_commands ps'
  end.

(** The tail of [tracePath]: the path string built from [points]. *)
Definition path_of_points (ps : list point) : string :=
  match ps with
  | p0 :: rest =>
      if (length ps <? 3)%nat then ""
      else "M " +:+ show_point p0 +:+ line_commands rest +:+ " Z"
  | [] => ""
  end.

Definition trace_init (startX startY : Z) (vis : gset point) : trace_state :=
  mkTrace [(startX, startY)] [] vis.

(** [tracePath]: the returned string and the [visited] set as the call
    leaves it.  The [None] branch is never taken. *)
Definition tracePath (startX startY : Z) (img : ImageData)
    (width height thr : Z) (vis : gset point) : string * gset point :=
  let s0 := trace_init startX startY vis in
  match trace_loop (trace_fuel s0) img width height thr s0 with
  | Some s => (path_of_points (points s), visited s)
  | None => ("", vis)
  end.

(** *** [convertImageDataToSvg] *)

Definition path_element (d : string) (r g b a : option Z) : string :=
  "<path d=" +:+ Js.dquote +:+ d +:+ Js.dquote
  +:+ " fill=" +:+ Js.dquote
  +:+ "rgb(" +:+ show_channel r +:+ "," +:+ show_channel g +:+ ","
  +:+ show_channel b +:+ ")" +:+ Js.dquote
  +:+ " opacity=" +:+ Js.dquote +:+ show_opacity a +:+ Js.dquote
  +:+ " />" +:+ Js.newline.

(** The body of the inner [for] loop at sample [(x, y)]; the accumulator
    is the [visited] set and the [svgPaths] string. *)
Definition scan_sample (img : ImageData) (width height thr : Z)
    (acc : gset point * string) (y x : Z) : gset point * string :=
  let '(vis, svgPaths) := acc in
  if bool_decide ((x, y) ∈ vis) then acc
  else
    let index := (y * width + x) * 4 in
    let r := data_at (data img) index in
    let g := data_at (data img) (index + 1) in
    let b := data_at (data img) (index + 2) in
    let a := data_at (data img) (index + 3) in
    if num_lt (brightness r g b) thr && num_gt a 128
    then
      let '(path, vis') := tracePath x y img width height thr vis in
      if (10 <? String.length path)%nat
      then (vis', svgPaths +:+ path_element path r g b a)
      else (vis', svgPaths)
    else acc.

Definition scan_row (img : ImageData) (width height thr : Z)
    (acc : gset point * string) (y : Z) : gset point * string :=
  fold_left (fun acc x => scan_sample img width height thr acc y x)
            (stride4 width) acc.

Definition scan_image (img : ImageData) (width height thr : Z)
    : gset point * string :=
  fold_left (scan_row img width height thr) (stride4 height) (∅, "").

Definition svg_document (width height : Z) (svgPaths : string) : string :=
  "<svg width=" +:+ Js.dquote +:+ Js.show_Z width +:+ Js.dquote
  +:+ " height=" +:+ Js.dquote +:+ Js.show_Z height +:+ Js.dquote
  +:+ " xmlns=" +:+ Js.dquote +:+ "http://www.w3.org/2000/svg" +:+ Js.dquote
  +:+ ">" +:+ Js.newline +:+ svgPaths +:+ Js.newline +:+ "</svg>".

(** [convertImageDataToSvg]; the threshold is read from the component's
    [svgTraceSettings]. *)
Definition convertImageDataToSvg (st : AppState)
    (img : ImageData) (width height : Z) : string :=
  let thr := threshold (svgTraceSettings st) in
  svg_document width height (snd (scan_image img width height thr)).

(** *** State updates *)

Definition setIsConverting (b : bool) (st : AppState) : AppState :=
  mkApp (uploadedFile st) (fileContent st) (convertedFiles st)
        (extractedPaths st) (quality st) (width st) (height st)
        (isDragging st) b (conversionMode st) (svgTraceSettings st).

(** [setConvertedFiles(prev => f(prev))]; a plain value is the constant
    updater. *)
Definition setConvertedFiles (f : list ConvertedFile -> list ConvertedFile)
    (st : AppState) : AppState :=
  mkApp (uploadedFile st) (fileContent st) (f (convertedFiles st))
        (extractedPaths st) (quality st) (width st) (height st)
        (isDragging st) (isConverting st) (conversionMode st)
        (svgTraceSettings st).

Definition setExtractedPaths (l : list string) (st : AppState) : AppState :=
  mkApp (uploadedFile st) (fileContent st) (convertedFiles st)
        l (quality st) (width st) (height st)
        (isDragging st) (isConverting st) (conversionMode st)
        (svgTraceSettings st).

Definition is_mode (m m' : ConversionMode) : bool :=
  match m, m' with
  | SvgToRaster, SvgToRaster | RasterToSvg, RasterToSvg => true
  | _, _ => false
  end.

(** *** [Image] in this file *)

(** Line 2 imports [Image] from lucide-react together with the other
    icons; inside the module the name no longer denotes the constructor of
    the browser.  ([src/src/App.tsx] has no such import.) *)
Definition Image : ImageBinding := LucideIcon.

(** The [catch] clause shared by the two conversions: the error is logged
    and the busy flag cleared. *)
Definition conversion_failed (st : AppState) (w : Browser)
    : AppState * Browser :=
  (setIsConverting false st, emit ConsoleError w).

(** *** [convertSvgToRaster] *)

(** What the host answers during one vector-to-raster conversion: whether
    [getContext('2d')] gives a context, whether the image decodes (so that
    [onload] runs), and the blob handed to the [toBlob] callback ([None]
    for [null]).  In this file only the first answer is ever asked for:
    the call raises before a load handler is installed. *)
Record RasterEnv := mkRasterEnv {
  ctx_ok : bool;
  image_loaded : bool;
  encoded : option Blob
}.

Definition mime_of (fmt : Format) : string :=
  match fmt with
  | Png => "image/png"
  | Jpeg => "image/jpeg"
  end.

Definition raster_name (fmt : Format) (st : AppState) : string :=
  match uploadedFile st with
  | Some f => Js.replace_first ".svg" ("." +:+ format_string fmt) (file_name f)
  | None => "converted." +:+ format_string fmt
  end.

(** The updater passed to [setConvertedFiles]. *)
Definition replace_format (fmt : Format) (new : ConvertedFile)
    (prev : list ConvertedFile) : list ConvertedFile :=
  filter (fun f => format f ≠ Js.toUpperCase (format_string fmt)) prev
  ++ [new].

(** The body of the [toBlob] callback. *)
Definition raster_encoded (fmt : Format) (env : RasterEnv)
    (st : AppState) (w : Browser) : AppState * Browser :=
  match encoded env with
  | Some blob =>
      let '(convertedUrl, w) := createObjectURL blob w in
      let new := mkConverted (raster_name fmt st) convertedUrl
                             (Js.toUpperCase (format_string fmt)) in
      (setIsConverting false (setConvertedFiles (replace_format fmt new) st), w)
  | None => (setIsConverting false st, w)
  end.

(** The body of [img.onload]; [toBlob] calls back only after the handler
    has returned. *)
Definition raster_onload (fmt : Format) (env : RasterEnv)
    (u : object_url) (st : AppState) (w : Browser) : AppState * Browser :=
  let w := match fmt with
           | Jpeg => emit (FillWhite (width st) (height st)) w
           | Png => w
           end in
  let w := emit (DrawImage (Some (width st)) (Some (height st))) w in
  let w := emit (ToBlob (mime_of fmt) (quality st)) w in
  let w := revokeObjectURL u w in
  raster_encoded fmt env st w.

Definition convertSvgToRaster (fmt : Format) (env : RasterEnv)
    (st : AppState) (w : Browser) : AppState * Browser :=
  if String.eqb (fileContent st) ""
     || negb (is_mode (conversionMode st) SvgToRaster)
  then (st, w)
  else
    let st := setIsConverting true st in
    if negb (ctx_ok env) then (st, w)
    else
      match new_Image Image with
      | None => conversion_failed st w
      | Some _ =>
          let svgBlob := mkBlob (fileContent st) "image/svg+xml" in
          let '(u, w) := createObjectURL svgBlob w in
          if image_loaded env then raster_onload fmt env u st w
          else (st, w)
      end.

(** *** [convertRasterToSvg] *)

(** The host's answers during one raster-to-vector conversion: the decoded
    image with its pixels ([None] when it fails to load) and whether a 2d
    context is available.  They are what the load handler would ask for;
    the call raises before the handler is installed. *)
Record TraceEnv := mkTraceEnv {
  decoded : option ImageData;
  trace_ctx_ok : bool
}.

(** [name.replace(/\.(png|jpe?g)$/i, '.svg')] *)
Definition svg_name_of (name : string) : string :=
  let lower := Js.toLowerCase name in
  let n := String.length name in
  if Js.endsWith lower ".png" || Js.endsWith lower ".jpg"
  then String.substring 0 (n - 4) name +:+ ".svg"
  else if Js.endsWith lower ".jpeg"
  then String.substring 0 (n - 5) name +:+ ".svg"
  else name.

Definition svg_name (st : AppState) : string :=
  match uploadedFile st with
  | Some f => svg_name_of (file_name f)
  | None => "converted.svg"
  end.

(** The body of [img.onload].  [getImageData] raises on an empty rectangle;
    the handler then stops where it is. *)
Definition trace_onload (parse : string -> Node) (env : TraceEnv)
    (img : ImageData) (st : AppState) (w : Browser) : AppState * Browser :=
  if negb (trace_ctx_ok env) then (st, w)
  else
    let w := emit (DrawImage None None) w in
    if (img_width img =? 0) || (img_height img =? 0) then (st, w)
    else
      let w := emit (GetImageData (img_width img) (img_height img)) w in
      let svgContent :=
        convertImageDataToSvg st img (img_width img) (img_height img) in
      let svgBlob := mkBlob svgContent "image/svg+xml" in
      let '(svgUrl, w) := createObjectURL svgBlob w in
      let st :=
        setConvertedFiles (fun _ => [mkConverted (svg_name st) svgUrl "SVG"]) st in
      let st := setExtractedPaths (extractPaths parse svgContent) st in
      (setIsConverting false st, w).

Definition convertRasterToSvg (parse : string -> Node) (env : TraceEnv)
    (st : AppState) (w : Browser) : AppState * Browser :=
  if String.eqb (fileContent st) ""
     || negb (is_mode (conversionMode st) RasterToSvg)
  then (st, w)
  else
    let st := setIsConverting true st in
    match new_Image Image with
    | None => conversion_failed st w
    | Some _ =>
        match decoded env with
        | Some img => trace_onload parse env img st w
        | None => (st, w)
        end
    end.

End Converter.

(** ** The component of [src/src/App.tsx] *)

Module App.

Record AppState := mkApp {
  svgFile : option File;
  svgContent : string;
  convertedFiles : list ConvertedFile;
  extractedPaths : list string;
  quality : Q;
  width : Z;
  height : Z;
  isDragging : bool;
  isConverting : bool
}.

Definition setIsConverting (b : bool) (st : AppState) : AppState :=
  mkApp (svgFile st) (svgContent st) (convertedFiles st) (extractedPaths st)
        (quality st) (width st) (height st) (isDragging st) b.

Definition setConvertedFiles (f : list ConvertedFile -> list ConvertedFile)
    (st : AppState) : AppState :=
  mkApp (svgFile st) (svgContent st) (f (convertedFiles st))
        (extractedPaths st) (quality st) (width st) (height st)
        (isDragging st) (isConverting st).

(** The host's answers, as for [Converter.convertSvgToRaster]. *)
Record RasterEnv := mkRasterEnv {
  ctx_ok : bool;
  image_loaded : bool;
  encoded : option Blob
}.

Definition mime_of (fmt : Format) : string :=
  match fmt with
  | Png => "image/png"
  | Jpeg => "image/jpeg"
  end.

Definition raster_name (fmt : Format) (st : AppState) : string :=
  match svgFile st with
  | Some f => Js.replace_first ".svg" ("." +:+ format_string fmt) (file_name f)
  | None => "converted." +:+ format_string fmt
  end.

(** The updater passed to [setConvertedFiles]: the filter compares the
    stored tag with the parameter itself, the new entry is tagged with
    the parameter in upper case. *)
Definition replace_format (fmt : Format) (new : ConvertedFile)
    (prev : list ConvertedFile) : list ConvertedFile :=
  filter (fun f => format f ≠ format_string fmt) prev ++ [new].

Definition raster_encoded (fmt : Format) (env : RasterEnv)
    (st : AppState) (w : Browser) : AppState * Browser :=
  match encoded env with
  | Some blob =>
      let '(convertedUrl, w) := createObjectURL blob w in
      let new := mkConverted (raster_name fmt st) convertedUrl
                             (Js.toUpperCase (format_string fmt)) in
      (setIsConverting false (setConvertedFiles (replace_format fmt new) st), w)
  | None => (setIsConverting false st, w)
  end.

Definition raster_onload (fmt : Format) (env : RasterEnv)
    (u : object_url) (st : AppState) (w : Browser) : AppState * Browser :=
  let w := match fmt with
           | Jpeg => emit (FillWhite (width st) (height st)) w
           | Png => w
           end in
  let w := emit (DrawImage (Some (width st)) (Some (height st))) w in
  let w := emit (ToBlob (mime_of fmt) (quality st)) w in
  let w := revokeObjectURL u w in
  raster_encoded fmt env st w.

Definition convertToFormat (fmt : Format) (env : RasterEnv)
    (st : AppState) (w : Browser) : AppState * Browser :=
  if String.eqb (svgContent st) "" then (st, w)
  else
    let st := setIsConverting true st in
    if negb (ctx_ok env) then (st, w)
    else
      let svgBlob := mkBlob (svgContent st) "image/svg+xml" in
      let '(u, w) := createObjectURL svgBlob w in
      if image_loaded env then raster_onload fmt env u st w
      else (st, w).

End App.

(** ** Sample inputs *)

(** The [useState] defaults of [src/unnamed/part_000]. *)
Definition initialState : Converter.AppState :=
  Converter.mkApp None "" [] [] 1%Q 800 600 false false
                  Converter.SvgToRaster (Converter.mkTraceSettings 128 true 1%Q).

(** The same component once an SVG, respectively a PNG, has been uploaded. *)
Definition svgLoaded : Converter.AppState :=
  Converter.mkApp (Some (mkFile "logo.svg" "image/svg+xml")) "<svg/>" [] []
                  1%Q 800 600 false false
                  Converter.SvgToRaster (Converter.mkTraceSettings 128 true 1%Q).

Definition pngLoaded : Converter.AppState :=
  Converter.mkApp (Some (mkFile "photo.PNG" "image/png")) "data:image/png;base64,AAAA"
                  [mkConverted "old.png" 7%nat "PNG"] []
                  1%Q 800 600 false false
                  Converter.RasterToSvg (Converter.mkTraceSettings 128 true 1%Q).

(** The component of [src/src/App.tsx] with an SVG uploaded. *)
Definition appLoaded : App.AppState :=
  App.mkApp (Some (mkFile "logo.svg" "image/svg+xml")) "<svg/>" [] []
            1%Q 800 600 false false.

Definition freshBrowser : Browser := mkBrowser ∅ 0%nat [].

(** An 8 x 8 buffer of opaque black pixels, and a 5 x 3 buffer of opaque
    white ones. *)
Definition black8 : ImageData :=
  mkImageData (concat (repeat [x00; x00; x00; xff] 64)) 8 8.


(** The 8 x 8 black buffer with the pixel at (1, 0), which the sampling
    loops never look at, turned white. *)
Definition speckled8 : ImageData :=
  mkImageData ([x00; x00; x00; xff] ++ [xff; xff; xff; xff]
               ++ concat (repeat [x00; x00; x00; xff] 62)) 8 8.

(** A host in which everything succeeds. *)
Definition pngBlob : Blob := mkBlob "PNG-bytes" "image/png".

Definition hostOk : Converter.RasterEnv :=
  Converter.mkRasterEnv true true (Some pngBlob).

Definition appHostOk : App.RasterEnv :=
  App.mkRasterEnv true true (Some pngBlob).

(** A document whose only path element carries an empty geometry. *)
Definition emptyGeometryDoc : Node :=
  Element "svg" [] [Element "path" [("d", "")] []].

(** A document mixing path elements with and without geometry. *)
Definition mixedDoc : Node :=
  Element "svg" []
    [ Element "path" [("d", "M 0 0 L 1 1 Z")] [];
      Element "g" [] [ Element "path" [("fill", "red")] [];
                       Element "path" [("d", "M 2 2 Z"); ("fill", "blue")] [] ];
      Text "note";
      Element "rect" [("d", "ignored")] [] ].

(** A document in which a path element with an empty geometry stands
    between two that have one. *)
Definition gappedDoc : Node :=
  Element "svg" []
    [ Element "path" [("d", "M 0 0 L 1 1 Z")] [];
      Element "path" [("d", "")] [];
      Element "g" [] [ Element "path" [("d", "M 2 2 Z")] [] ] ].

(** ** Vocabulary of the statements *)

(** Number of occurrences of a character; with ["L"] it counts the
    line-drawing commands of a path string. *)
Fixpoint count_char (c : ascii) (s : string) : nat :=
  match s with
  | EmptyString => 0%nat
  | String c' s' => ((if Ascii.eqb c' c then 1 else 0) + count_char c s')%nat
  end.


(** The sample grid that the two [for] loops walk through, row by row. *)
Definition sample_grid (width height : Z) : list point :=
  y ← stride4 height; x ← stride4 width; [(x, y)].

(** The three offsets of the neighbour loops. *)
Definition offsets : list Z := [-4; 0; 4].

(** The path elements of a document that carry a geometry attribute. *)
Definition paths_with_geometry (doc : Node) : list Node :=
  filter (fun n => is_Some (getAttribute "d" n)) (querySelectorAll "path" doc).

(** The geometry attribute of the element is there and is not empty. *)
Definition nonempty_geometry (n : Node) : bool :=
  match getAttribute "d" n with
  | Some (String _ _) => true
  | _ => false
  end.

(** The path elements of a document that carry a non-empty geometry
    attribute, in document order. *)
Definition paths_with_nonempty_geometry (doc : Node) : list Node :=
  filter (fun n => tag_of n = "path" /\ nonempty_geometry n = true)
         (elements doc).

(** Two buffers hold the same bytes wherever the sampling loops can look:
    the four channels of the pixels inside the image whose coordinates are
    both multiples of 4. *)
Definition same_samples (d1 d2 : list byte) (width height : Z) : Prop :=
  forall x y c : Z,
    0 <= x < width -> 0 <= y < height -> x mod 4 = 0 -> y mod 4 = 0 ->
    0 <= c < 4 ->
    data_at d1 ((y * width + x) * 4 + c) = data_at d2 ((y * width + x) * 4 + c).

(** The canvas calls of [img.onload], in order: the white fill for JPEG
    only, the drawing of the image, the request for the encoded blob. *)
Definition canvas_ops (fmt : Format) (w h : Z) (q : Q) : list effect :=
  match fmt with
  | Jpeg => [FillWhite w h]
  | Png => []
  end
  ++ [DrawImage (Some w) (Some h);
      ToBlob (match fmt with Png => "image/png" | Jpeg => "image/jpeg" end) q].

(** The artifacts that carry, respectively do not carry, a format tag. *)
Definition with_format (tag : string) (l : list ConvertedFile)
    : list ConvertedFile :=
  filter (fun f => format f = tag) l.

Definition without_format (tag : string) (l : list ConvertedFile)
    : list ConvertedFile :=
  filter (fun f => format f <> tag) l.

(** A host in which the image fails to decode. *)
Definition appHostDecodeFails : App.RasterEnv :=
  App.mkRasterEnv true false None.

(** ** Vocabulary of the further properties *)

(** The state in which the trace started at a point ends. *)
Definition traced (img : ImageData) (width height thr startX startY : Z)
    (vis : gset point) : Converter.trace_state :=
  default (Converter.trace_init startX startY vis)
    (Converter.trace_loop
       (Converter.trace_fuel (Converter.trace_init startX startY vis))
       img width height thr (Converter.trace_init startX startY vis)).

(** The point lies inside the image. *)
Definition in_bounds (width height : Z) (p : point) : Prop :=
  0 <= p.1 < width /\ 0 <= p.2 < height.

(** The test [brightness >= threshold] of [tracePath] fails at the point. *)
Definition dark (img : ImageData) (width thr : Z) (p : point) : Prop :=
  num_ge
    (Converter.pixel_brightness (data img) width p.1 p.2) thr = false.

(** Every element but the first is a neighbour of an earlier one. *)
Definition chained (l : list point) : Prop :=
  forall l1 q l2, l = l1 ++ q :: l2 -> l1 <> [] ->
    exists p, p ∈ l1 /\ q ∈ Converter.neighbors p.1 p.2.

(** What the trace keeps true of its stack and points: before the first
    point is collected the stack holds at most the seed; afterwards the
    points start with the seed and are chained, and every stacked point is
    a neighbour of a collected one. *)
Definition grown_from (seed : point) (s : Converter.trace_state) : Prop :=
  (Converter.points s = []
   /\ (Converter.stack s = [seed] \/ Converter.stack s = []))
  \/ ((exists tl, Converter.points s = seed :: tl)
      /\ chained (Converter.points s)
      /\ forall q, q ∈ Converter.stack s ->
           exists p, p ∈ Converter.points s /\ q ∈ Converter.neighbors p.1 p.2).

(** The visited set is what it was plus the points collected; the points
    are distinct, were not visited before, lie inside the image and are
    below the threshold. *)
Definition collected_fresh (img : ImageData) (width height thr : Z)
    (vis0 : gset point) (s : Converter.trace_state) : Prop :=
  Converter.visited s = vis0 ∪ list_to_set (Converter.points s)
  /\ NoDup (Converter.points s)
  /\ forall p, p ∈ Converter.points s ->
       (p ∉ vis0) /\ in_bounds width height p /\ dark img width thr p.

(** Every point that is on the stack or collected lies on the lattice of
    the start point. *)
Definition on_lattice (x0 y0 : Z) (s : Converter.trace_state) : Prop :=
  forall p, p ∈ Converter.stack s ++ Converter.points s ->
    p.1 mod 4 = x0 mod 4 /\ p.2 mod 4 = y0 mod 4.

(** A traced region as it is emitted: its points in collection order and
    the red, green, blue and alpha bytes of the fill. *)
Definition region : Type := list point * (Z * Z * Z * Z).

Definition render_region (rg : region) : string :=
  let '(ps, (r, g, b, a)) := rg in
  Converter.path_element (Converter.path_of_points ps)
                         (Some r) (Some g) (Some b) (Some a).

Fixpoint render_regions (rs : list region) : string :=
  match rs with
  | [] => ""
  | rg :: rs' => render_region rg +:+ render_regions rs'
  end.

(** A well-formed region: between 3 and 50 points, the first of which is
    an ink sample whose four bytes are the fill. *)
Definition region_ok (img : ImageData) (width thr : Z) (rg : region) : Prop :=
  let '(ps, (r, g, b, a)) := rg in
  (3 <= length ps <= 50)%nat
  /\ exists x y rest,
       ps = (x, y) :: rest
       /\ data_at (data img) ((y * width + x) * 4) = Some r
       /\ data_at (data img) ((y * width + x) * 4 + 1) = Some g
       /\ data_at (data img) ((y * width + x) * 4 + 2) = Some b
       /\ data_at (data img) ((y * width + x) * 4 + 3) = Some a
       /\ r + g + b < 3 * thr /\ 128 < a.

(** What the scan keeps true of its accumulator, [rs] being the regions
    emitted so far. *)
Definition scan_inv (img : ImageData) (width height thr : Z)
    (rs : list region) (acc : gset point * string) : Prop :=
  acc.2 = render_regions rs
  /\ NoDup (concat rs.*1)
  /\ (forall p, p ∈ concat rs.*1 -> p ∈ acc.1)
  /\ (forall p, p ∈ acc.1 -> p ∈ sample_grid width height)
  /\ Forall (region_ok img width thr) rs.

(** A buffer no pixel of which has an alpha above 128. *)
Definition all_transparent (d : list byte) : Prop :=
  forall (i : nat) (b : byte),
    d !! i = Some b -> (i mod 4 = 3)%nat -> Z.of_N (Byte.to_N b) <= 128.


(** ** Choosing a file: the rest of [src/unnamed/part_000] *)

(** [s.startsWith(p)] *)
Definition startsWith (s p : string) : bool := String.prefix p s.

(** What reading a file gives: the text that [file.text()] resolves with,
    and the data URL that [FileReader.readAsDataURL] hands to [onload];
    [None] when the read fails (the promise rejects, [onload] never runs). *)
Record FileHost := mkFileHost {
  file_text : option string;
  data_url : option string
}.

Module ConverterUpload.

Import Converter.

Definition setUploadedFile (f : option File) (st : AppState) : AppState :=
  mkApp f (fileContent st) (convertedFiles st) (extractedPaths st)
        (quality st) (width st) (height st) (isDragging st)
        (isConverting st) (conversionMode st) (svgTraceSettings st).

Definition setFileContent (c : string) (st : AppState) : AppState :=
  mkApp (uploadedFile st) c (convertedFiles st) (extractedPaths st)
        (quality st) (width st) (height st) (isDragging st)
        (isConverting st) (conversionMode st) (svgTraceSettings st).

Definition setConversionMode (m : ConversionMode) (st : AppState) : AppState :=
  mkApp (uploadedFile st) (fileContent st) (convertedFiles st)
        (extractedPaths st) (quality st) (width st) (height st)
        (isDragging st) (isConverting st) m (svgTraceSettings st).

Definition setIsDragging (b : bool) (st : AppState) : AppState :=
  mkApp (uploadedFile st) (fileContent st) (convertedFiles st)
        (extractedPaths st) (quality st) (width st) (height st)
        b (isConverting st) (conversionMode st) (svgTraceSettings st).

Definition isSvgFile (file : File) : bool :=
  String.eqb (file_type file) "image/svg+xml"
  || Js.endsWith (Js.toLowerCase (file_name file)) ".svg".

Definition isRasterFile (file : File) : bool :=
  startsWith (file_type file) "image/" && negb (isSvgFile file).

(** [name.match(/\.(svg|png|jpe?g)$/i)] as a truth value. *)
Definition has_image_extension (name : string) : bool :=
  let lower := Js.toLowerCase name in
  Js.endsWith lower ".svg" || Js.endsWith lower ".png"
  || Js.endsWith lower ".jpg" || Js.endsWith lower ".jpeg".

(** The predicate that [handleDrop] passes to [files.find]. *)
Definition droppable (file : File) : bool :=
  startsWith (file_type file) "image/" || has_image_extension (file_name file).

Definition handleFileUpload (parse : string -> Node) (read : File -> FileHost)
    (file : File) (st : AppState) : AppState :=
  let st := setUploadedFile (Some file) st in
  let st := setConvertedFiles (fun _ => []) st in
  let st := setExtractedPaths [] st in
  if isSvgFile file then
    let st := setConversionMode SvgToRaster st in
    match file_text (read file) with
    | Some content =>
        let st := setFileContent content st in
        setExtractedPaths (extractPaths parse content) st
    | None => st
    end
  else if isRasterFile file then
    let st := setConversionMode RasterToSvg st in
    match data_url (read file) with
    | Some result => setFileContent result st
    | None => st
    end
  else st.

Definition handleDragOver (st : AppState) : AppState := setIsDragging true st.

Definition handleDragLeave (st : AppState) : AppState := setIsDragging false st.

Definition handleDrop (parse : string -> Node) (read : File -> FileHost)
    (files : list File) (st : AppState) : AppState :=
  let st := setIsDragging false st in
  match List.find droppable files with
  | Some imageFile => handleFileUpload parse read imageFile st
  | None => st
  end.

(** [e.target.files?.[0]] *)
Definition handleFileInputChange (parse : string -> Node)
    (read : File -> FileHost) (files : list File) (st : AppState) : AppState :=
  match files with
  | file :: _ => handleFileUpload parse read file st
  | [] => st
  end.

(** The [onClick] handlers of the two mode buttons. *)
Definition switchMode (m : ConversionMode) (st : AppState) : AppState :=
  let st := setConversionMode m st in
  let st := setUploadedFile None st in
  let st := setFileContent "" st in
  let st := setConvertedFiles (fun _ => []) st in
  setExtractedPaths [] st.

End ConverterUpload.

(** ** Choosing a file: the rest of [src/src/App.tsx] *)

Module AppUpload.

Import App.

Definition setSvgFile (f : option File) (st : AppState) : AppState :=
  mkApp f (svgContent st) (convertedFiles st) (extractedPaths st)
        (quality st) (width st) (height st) (isDragging st) (isConverting st).

Definition setSvgContent (c : string) (st : AppState) : AppState :=
  mkApp (svgFile st) c (convertedFiles st) (extractedPaths st)
        (quality st) (width st) (height st) (isDragging st) (isConverting st).

Definition setExtractedPaths (l : list string) (st : AppState) : AppState :=
  mkApp (svgFile st) (svgContent st) (convertedFiles st) l
        (quality st) (width st) (height st) (isDragging st) (isConverting st).

Definition setIsDragging (b : bool) (st : AppState) : AppState :=
  mkApp (svgFile st) (svgContent st) (convertedFiles st) (extractedPaths st)
        (quality st) (width st) (height st) b (isConverting st).

(** The predicate that [handleDrop] passes to [files.find]. *)
Definition droppable (file : File) : bool :=
  String.eqb (file_type file) "image/svg+xml"
  || Js.endsWith (file_name file) ".svg".

Definition handleFileUpload (parse : string -> Node) (read : File -> FileHost)
    (file : File) (st : AppState) : AppState :=
  let st := setSvgFile (Some file) st in
  match file_text (read file) with
  | Some content =>
      let st := setSvgContent content st in
      let st := setExtractedPaths (extractPaths parse content) st in
      setConvertedFiles (fun _ => []) st
  | None => st
  end.

Definition handleDrop (parse : string -> Node) (read : File -> FileHost)
    (files : list File) (st : AppState) : AppState :=
  let st := setIsDragging false st in
  match List.find droppable files with
  | Some svgFile => handleFileUpload parse read svgFile st
  | None => st
  end.

Definition handleFileInputChange (parse : string -> Node)
    (read : File -> FileHost) (files : list File) (st : AppState) : AppState :=
  match files with
  | file :: _ => handleFileUpload parse read file st
  | [] => st
  end.

End AppUpload.

(** The object URLs handed out so far are the only ones in use. *)
Definition wf_browser (w : Browser) : Prop :=
  forall u, u ∈ live w -> (u < next_url w)%nat.

(** Every artifact of the list points at a live object URL. *)
Definition artifacts_live (l : list ConvertedFile) (w : Browser) : Prop :=
  forall f, f ∈ l -> url f ∈ live w.

(** A file whose name ends in [.png] but that carries no MIME type. *)
Definition untypedPng : File := mkFile "scan.png" "".

Definition readsAs (text : string) : File -> FileHost :=
  fun _ => mkFileHost (Some text) (Some ("data:;base64," +:+ text)).

(** ** Further sample inputs *)

(** An 8 x 8 buffer of black pixels at alpha 128, and a state of
    [src/src/App.tsx] that holds one artifact of each raster format. *)
Definition faint8 : ImageData :=
  mkImageData (concat (repeat [x00; x00; x00; x80] 64)) 8 8.

Definition twoArtifacts : App.AppState :=
  App.mkApp (Some (mkFile "logo.svg" "image/svg+xml")) "<svg/>"
            [mkConverted "logo.png" 0%nat "PNG";
             mkConverted "logo.jpeg" 1%nat "JPEG"] []
            1%Q 800 600 false false.

(** A host without a 2d drawing context. *)
Definition hostNoContext : Converter.RasterEnv :=
  Converter.mkRasterEnv false true (Some pngBlob).

Definition twoUrls : Browser :=
  mkBrowser (<[0%nat := pngBlob]> (<[1%nat := pngBlob]> ∅)) 2%nat [].

(** * Properties *)

Import Converter.

(** ** Strings *)

Lemma length_append (s t : string) :
  String.length (s +:+ t) = (String.length s + String.length t)%nat.
Proof. induction s as [|c s IH]; simpl; [reflexivity | now rewrite IH]. Qed.

Lemma append_empty_r (s : string) : s +:+ "" = s.
Proof.
  induction s as [|c s IH]; [reflexivity|].
  change (String c (s +:+ "") = String c s). now rewrite IH.
Qed.

Lemma append_assoc (s t u : string) : (s +:+ t) +:+ u = s +:+ t +:+ u.
Proof.
  induction s as [|c s IH]; [reflexivity|].
  change (String c ((s +:+ t) +:+ u) = String c (s +:+ t +:+ u)).
  now rewrite IH.
Qed.

Lemma fold_left_ext_in {A B : Type} (f g : A -> B -> A) (l : list B) (a : A) :
  (forall a x, x ∈ l -> f a x = g a x) -> fold_left f l a = fold_left g l a.
Proof.
  revert a. induction l as [|x l IH]; intros a H; [reflexivity|].
  simpl. rewrite (H a x) by now left.
  apply IH. intros a' x' Hx'. apply H. now right.
Qed.

Lemma elem_of_rev_list {A : Type} (x : A) (l : list A) : x ∈ rev l <-> x ∈ l.
Proof. rewrite !list_elem_of_In. symmetry. apply in_rev. Qed.

(** ** The sampling loops *)

(** The loop variable of [for (let v = 0; v < n; v += 4)] takes exactly the
    multiples of 4 from 0 up to, and excluding, [n]. *)
Lemma elem_of_stride4 (n v : Z) :
  v ∈ stride4 n <-> 0 <= v < n /\ v mod 4 = 0.
Proof.
  unfold stride4. rewrite list_elem_of_fmap. split.
  - intros (k & -> & Hk). apply elem_of_seq in Hk.
    split; [|rewrite Z.mul_comm; apply Z_mod_mult].
    destruct Hk as [_ Hk]. simpl in Hk.
    assert (Z.of_nat k < (n + 3) / 4) by lia.
    pose proof (Z.mul_div_le (n + 3) 4 ltac:(lia)). lia.
  - intros [[H0 Hn] Hm]. exists (Z.to_nat (v / 4)). split.
    + rewrite Z2Nat.id by (apply Z.div_pos; lia).
      pose proof (Z.div_mod v 4 ltac:(lia)). lia.
    + apply elem_of_seq. split; [lia|]. simpl.
      apply Z2Nat.inj_lt; [apply Z.div_pos; lia | apply Z.div_pos; lia |].
      pose proof (Z.div_mod v 4 ltac:(lia)).
      apply Z.div_lt_upper_bound; [lia|].
      pose proof (Z.mul_succ_div_gt (n + 3) 4 ltac:(lia)). lia.
Qed.

(** ** The region trace terminates *)

Section Trace.

Variable img : ImageData.
Variables width height thr : Z.

Local Abbreviation iter := (trace_iter img width height thr).
Local Abbreviation loop := (fun fuel => trace_loop fuel img width height thr).

Lemma trace_cond_true (s : trace_state) :
  trace_cond s = true ->
  (0 < length (stack s))%nat /\ (length (points s) < 50)%nat.
Proof.
  unfold trace_cond. intros H.
  apply andb_prop in H as [H1 H2].
  apply Nat.ltb_lt in H1, H2. split; assumption.
Qed.

Lemma trace_cond_false (s : trace_state) :
  trace_cond s = false ->
  stack s = [] \/ (50 <= length (points s))%nat.
Proof.
  unfold trace_cond. intros H.
  apply andb_false_iff in H as [H | H]; apply Nat.ltb_ge in H.
  - left. destruct (stack s); [reflexivity | simpl in H; lia].
  - right. exact H.
Qed.

(** What one pass does to the three locals, whichever branch it takes. *)
Lemma trace_iter_cases (s : trace_state) p rest :
  stack s = p :: rest ->
  iter s = mkTrace rest (points s) (visited s)
  \/ ((p ∉ visited s)
      /\ iter s = mkTrace (rev (neighbors p.1 p.2) ++ rest)
                          (points s ++ [p]) ({[ p ]} ∪ visited s)).
Proof.
  intros Hst. unfold trace_iter. rewrite Hst. destruct p as [x y]. simpl.
  destruct (bool_decide ((x, y) ∈ visited s)) eqn:Hv; simpl; [now left|].
  destruct (out_of_bounds width height x y); [now left|].
  destruct (num_ge _ thr); [now left|].
  right. split; [|reflexivity].
  now apply bool_decide_eq_false in Hv.
Qed.

(** Each pass through the loop body uses up exactly one unit. *)
Lemma trace_iter_fuel (s : trace_state) :
  trace_cond s = true -> S (trace_fuel (iter s)) = trace_fuel s.
Proof.
  intros Hc. apply trace_cond_true in Hc as [Hs Hp].
  destruct (stack s) as [|p rest] eqn:Hst; [simpl in Hs; lia|].
  destruct (trace_iter_cases s p rest Hst) as [-> | [_ ->]];
    unfold trace_fuel; rewrite Hst; simpl.
  - lia.
  - rewrite !length_app. simpl. lia.
Qed.

Lemma trace_iter_points (s : trace_state) :
  trace_cond s = true ->
  (length (points (iter s)) <= 50)%nat
  /\ (length (points s) <= length (points (iter s)))%nat.
Proof.
  intros Hc. apply trace_cond_true in Hc as [Hs Hp].
  destruct (stack s) as [|p rest] eqn:Hst; [simpl in Hs; lia|].
  destruct (trace_iter_cases s p rest Hst) as [-> | [_ ->]]; simpl.
  - lia.
  - rewrite length_app. simpl. lia.
Qed.

Lemma trace_loop_enough (fuel : nat) :
  forall s, (trace_fuel s <= fuel)%nat ->
  exists s', loop fuel s = Some s' /\ trace_cond s' = false.
Proof.
  induction fuel as [|fuel IH]; intros s Hf.
  - unfold trace_fuel in Hf. lia.
  - simpl. destruct (trace_cond s) eqn:Hc.
    + apply IH. pose proof (trace_iter_fuel s Hc). lia.
    + exists s. split; [reflexivity | exact Hc].
Qed.

Lemma trace_loop_more (fuel extra : nat) :
  forall s s', loop fuel s = Some s' -> loop (fuel + extra)%nat s = Some s'.
Proof.
  induction fuel as [|fuel IH]; intros s s' H; simpl in *; [discriminate|].
  destruct (trace_cond s); [now apply IH | exact H].
Qed.

Lemma trace_loop_points (fuel : nat) :
  forall s s', loop fuel s = Some s' ->
  (length (points s') <= Nat.max 50 (length (points s)))%nat.
Proof.
  induction fuel as [|fuel IH]; intros s s' H; simpl in *; [discriminate|].
  destruct (trace_cond s) eqn:Hc.
  - apply IH in H. pose proof (trace_iter_points s Hc).
    apply trace_cond_true in Hc. lia.
  - injection H as <-. lia.
Qed.

Lemma trace_loop_visited_mono (fuel : nat) :
  forall s s', loop fuel s = Some s' -> visited s ⊆ visited s'.
Proof.
  induction fuel as [|fuel IH]; intros s s' H; simpl in *; [discriminate|].
  destruct (trace_cond s) eqn:Hc.
  - apply IH in H. apply trace_cond_true in Hc as [Hs _].
    destruct (stack s) as [|p rest] eqn:Hst; [simpl in Hs; lia|].
    destruct (trace_iter_cases s p rest Hst) as [E | [_ E]];
      rewrite E in H; simpl in H; set_solver.
  - injection H as <-. reflexivity.
Qed.

End Trace.

(** ** Path strings *)

Lemma count_char_append c (s t : string) :
  count_char c (s +:+ t) = (count_char c s + count_char c t)%nat.
Proof. induction s as [|c' s IH]; simpl; [reflexivity | rewrite IH; lia]. Qed.

Lemma count_L_uint (d : Decimal.uint) :
  count_char "L" (NilEmpty.string_of_uint d) = 0%nat.
Proof. induction d; simpl; assumption || reflexivity. Qed.

(** Printed integers hold digits and a sign only. *)
Lemma count_L_show_Z (z : Z) : count_char "L" (Js.show_Z z) = 0%nat.
Proof.
  unfold Js.show_Z. destruct (Z.to_int z) as [d | d]; simpl.
  - destruct d; simpl; try apply count_L_uint; reflexivity.
  - destruct d; simpl; try apply count_L_uint; reflexivity.
Qed.

Lemma count_L_show_point (p : point) : count_char "L" (show_point p) = 0%nat.
Proof.
  unfold show_point. rewrite !count_char_append, !count_L_show_Z. reflexivity.
Qed.

Lemma count_L_line_commands (ps : list point) :
  count_char "L" (line_commands ps) = length ps.
Proof.
  induction ps as [|p ps IH]; [reflexivity|].
  cbn [line_commands]. rewrite !count_char_append, count_L_show_point, IH.
  reflexivity.
Qed.

(** A path has one line command per point after the first. *)
Lemma count_L_path (ps : list point) :
  (count_char "L" (path_of_points ps) <= length ps - 1)%nat.
Proof.
  destruct ps as [|p0 rest]; [simpl; lia|].
  unfold path_of_points. destruct (length (p0 :: rest) <? 3)%nat; [simpl; lia|].
  rewrite !count_char_append, count_L_show_point, count_L_line_commands.
  simpl. lia.
Qed.

(** A path of three points or more is longer than ten characters, the
    length that [convertImageDataToSvg] asks for. *)
Lemma path_of_points_long (ps : list point) :
  (3 <= length ps)%nat -> (10 < String.length (path_of_points ps))%nat.
Proof.
  intros H. destruct ps as [|p0 [|p1 [|p2 rest]]]; simpl in H; try lia.
  unfold path_of_points.
  replace (length (p0 :: p1 :: p2 :: rest) <? 3)%nat with false
    by (symmetry; apply Nat.ltb_ge; simpl; lia).
  cbn [line_commands]. unfold show_point.
  rewrite !length_append. simpl. lia.
Qed.

Lemma path_of_points_short (ps : list point) :
  (length ps < 3)%nat -> path_of_points ps = "".
Proof.
  intros H. destruct ps as [|p0 rest]; [reflexivity|].
  unfold path_of_points. apply Nat.ltb_lt in H. now rewrite H.
Qed.

(** The path string of 3 or more points, character by character. *)
Lemma line_commands_written (ps : list point) (tail : string) :
  line_commands ps +:+ tail
  = foldr (fun p acc =>
             " L " +:+ Js.show_Z p.1 +:+ " " +:+ Js.show_Z p.2 +:+ acc)
          tail ps.
Proof.
  induction ps as [|p ps IH]; [reflexivity|].
  cbn [line_commands foldr]. unfold show_point.
  rewrite !append_assoc, IH. reflexivity.
Qed.

Lemma path_of_points_written (p0 : point) (rest : list point) :
  (3 <= length (p0 :: rest))%nat ->
  path_of_points (p0 :: rest)
  = "M " +:+ Js.show_Z p0.1 +:+ " " +:+ Js.show_Z p0.2
    +:+ foldr (fun p acc =>
                 " L " +:+ Js.show_Z p.1 +:+ " " +:+ Js.show_Z p.2 +:+ acc)
              " Z" rest.
Proof.
  intros Hlong. unfold path_of_points.
  replace (length (p0 :: rest) <? 3)%nat with false
    by (symmetry; now apply Nat.ltb_ge).
  unfold show_point. rewrite !append_assoc, line_commands_written.
  reflexivity.
Qed.

(** [tracePath] returns what the loop leaves when it exits. *)
Lemma tracePath_result img width height thr startX startY vis :
  exists s',
    trace_loop (trace_fuel (trace_init startX startY vis))
               img width height thr (trace_init startX startY vis) = Some s'
    /\ trace_cond s' = false
    /\ tracePath startX startY img width height thr vis
       = (path_of_points (points s'), visited s').
Proof.
  destruct (trace_loop_enough img width height thr
              (trace_fuel (trace_init startX startY vis))
              (trace_init startX startY vis)) as (s' & Hl & Hc); [lia|].
  exists s'. repeat split; try assumption.
  unfold tracePath. now rewrite Hl.
Qed.

(** C3: every region trace terminates.  From any state of the loop the
    budget [trace_fuel] (and any larger one) reaches an exit state, in which
    the stack is empty or 50 points are collected; a trace started by
    [tracePath] collects at most 50 points, and the path it returns holds at
    most 50 line-drawing commands. *)
Theorem region_trace_terminates_capped
    (img : ImageData) (width height thr startX startY : Z) (vis : gset point) :
  (forall s : trace_state, exists s',
      (forall extra : nat,
          trace_loop (trace_fuel s + extra) img width height thr s = Some s')
      /\ (stack s' = [] \/ (50 <= length (points s'))%nat))
  /\ (exists s',
        tracePath startX startY img width height thr vis
        = (path_of_points (points s'), visited s')
        /\ trace_loop (trace_fuel (trace_init startX startY vis))
                      img width height thr (trace_init startX startY vis)
           = Some s'
        /\ (stack s' = [] \/ length (points s') = 50%nat)
        /\ (length (points s') <= 50)%nat)
  /\ (count_char "L" (tracePath startX startY img width height thr vis).1
      <= 50)%nat.
Proof.
  assert (Hrun : exists s',
             tracePath startX startY img width height thr vis
             = (path_of_points (points s'), visited s')
             /\ trace_loop (trace_fuel (trace_init startX startY vis))
                           img width height thr (trace_init startX startY vis)
                = Some s'
             /\ (stack s' = [] \/ length (points s') = 50%nat)
             /\ (length (points s') <= 50)%nat).
  { destruct (tracePath_result img width height thr startX startY vis)
      as (s' & Hl & Hc & Ht).
    exists s'. pose proof (trace_loop_points _ _ _ _ _ _ _ Hl) as Hp.
    simpl in Hp. apply trace_cond_false in Hc.
    split; [exact Ht|]. split; [exact Hl|]. split; [|lia].
    destruct Hc as [Hc | Hc]; [now left | right; lia]. }
  split; [|split; [exact Hrun|]].
  - intros s.
    destruct (trace_loop_enough img width height thr (trace_fuel s) s)
      as (s' & Hl & Hc); [lia|].
    exists s'. split.
    + intros extra. now apply trace_loop_more.
    + now apply trace_cond_false.
  - destruct Hrun as (s' & -> & _ & _ & Hp). simpl.
    pose proof (count_L_path (points s')). lia.
Qed.

(** ** One pass of the region trace *)

(** The comparison [brightness >= threshold] on defined channels is a
    comparison of integers. *)
Lemma num_ge_brightness (r g b thr : Z) :
  num_ge (brightness (Some r) (Some g) (Some b)) thr = true
  <-> 3 * thr <= r + g + b.
Proof.
  unfold num_ge, brightness, Qle_bool. simpl.
  rewrite Z.leb_le. lia.
Qed.

Lemma num_lt_brightness (r g b thr : Z) :
  num_lt (brightness (Some r) (Some g) (Some b)) thr = true
  <-> r + g + b < 3 * thr.
Proof.
  unfold num_lt, brightness, Qle_bool. simpl.
  rewrite negb_true_iff, Z.leb_gt. lia.
Qed.

Lemma out_of_bounds_true (width height x y : Z) :
  out_of_bounds width height x y = true
  <-> x < 0 \/ width <= x \/ y < 0 \/ height <= y.
Proof.
  unfold out_of_bounds.
  rewrite !orb_true_iff, !Z.ltb_lt, !Z.leb_le. tauto.
Qed.

Lemma offsets_pair (x y dx dy : Z) (q : point) :
  dx ∈ offsets -> dy ∈ offsets -> (dx, dy) <> (0, 0) ->
  q = (x + dx, y + dy) ->
  exists dx dy, dx ∈ offsets /\ dy ∈ offsets
                /\ (dx, dy) <> (0, 0) /\ q = (x + dx, y + dy).
Proof. intros. exists dx, dy. auto. Qed.

Lemma elem_of_neighbors (x y : Z) (q : point) :
  q ∈ neighbors x y
  <-> exists dx dy, dx ∈ offsets /\ dy ∈ offsets
                    /\ (dx, dy) <> (0, 0) /\ q = (x + dx, y + dy).
Proof.
  unfold neighbors. split.
  - intros H.
    repeat (apply elem_of_cons in H as [-> | H]);
      try (now apply elem_of_nil in H).
    + apply (offsets_pair x y (-4) (-4)); unfold offsets;
        [set_solver | set_solver | congruence | f_equal; lia].
    + apply (offsets_pair x y (-4) 0); unfold offsets;
        [set_solver | set_solver | congruence | f_equal; lia].
    + apply (offsets_pair x y (-4) 4); unfold offsets;
        [set_solver | set_solver | congruence | f_equal; lia].
    + apply (offsets_pair x y 0 (-4)); unfold offsets;
        [set_solver | set_solver | congruence | f_equal; lia].
    + apply (offsets_pair x y 0 4); unfold offsets;
        [set_solver | set_solver | congruence | f_equal; lia].
    + apply (offsets_pair x y 4 (-4)); unfold offsets;
        [set_solver | set_solver | congruence | f_equal; lia].
    + apply (offsets_pair x y 4 0); unfold offsets;
        [set_solver | set_solver | congruence | f_equal; lia].
    + apply (offsets_pair x y 4 4); unfold offsets;
        [set_solver | set_solver | congruence | f_equal; lia].
  - intros (dx & dy & Hx & Hy & Hne & ->). unfold offsets in Hx, Hy.
    repeat (apply elem_of_cons in Hx as [-> | Hx]);
      try (now apply elem_of_nil in Hx);
      repeat (apply elem_of_cons in Hy as [-> | Hy]);
      try (now apply elem_of_nil in Hy);
      try congruence;
      replace (x + 0) with x by lia; replace (y + 0) with y by lia;
      replace (x + -4) with (x - 4) by lia;
      replace (y + -4) with (y - 4) by lia;
      set_solver.
Qed.

(** Each neighbour is pushed once per visit, whatever the stack holds. *)
Lemma neighbors_once (x y : Z) (q : point) :
  q ∈ neighbors x y ->
  length (filter (fun p => p = q) (rev (neighbors x y))) = 1%nat.
Proof.
  unfold neighbors. intros H.
  repeat (apply elem_of_cons in H as [-> | H]);
    try (now apply elem_of_nil in H);
    simpl;
    repeat (rewrite filter_cons; case_decide; simplify_eq; try lia);
    reflexivity.
Qed.

Lemma neighbors_on_grid (x y : Z) (q : point) :
  x mod 4 = 0 -> y mod 4 = 0 -> q ∈ neighbors x y ->
  q.1 mod 4 = 0 /\ q.2 mod 4 = 0.
Proof.
  intros Hx Hy H. apply elem_of_neighbors in H as (dx & dy & Hdx & Hdy & _ & ->).
  unfold offsets in Hdx, Hdy. cbn [fst snd].
  repeat (apply elem_of_cons in Hdx as [-> | Hdx]);
    try (now apply elem_of_nil in Hdx);
    repeat (apply elem_of_cons in Hdy as [-> | Hdy]);
    try (now apply elem_of_nil in Hdy);
    split; Z.to_euclidean_division_equations; lia.
Qed.

(** C1: what one pass of the trace loop does with the point [(x, y)] it
    pops.  A point that is already visited or out of bounds is dropped; an
    unvisited in-bounds point whose brightness is at or above the threshold
    is dropped too and stays unvisited; any other point is marked visited
    and appended to the points, and its eight neighbours at offsets -4, 0,
    4 are pushed, each once more than the stack already holds it. *)
Theorem tracePath_pop_step
    (img : ImageData) (width height thr x y : Z)
    (rest pts : list point) (vis : gset point) :
  let s := mkTrace ((x, y) :: rest) pts vis in
  let s' := trace_iter img width height thr s in
  let index := (y * width + x) * 4 in
  let bright :=
    exists r g b, data_at (data img) index = Some r
                  /\ data_at (data img) (index + 1) = Some g
                  /\ data_at (data img) (index + 2) = Some b
                  /\ 3 * thr <= r + g + b in
  ((x, y) ∈ vis \/ x < 0 \/ width <= x \/ y < 0 \/ height <= y ->
     s' = mkTrace rest pts vis)
  /\ ((x, y) ∉ vis -> 0 <= x < width -> 0 <= y < height -> bright ->
        s' = mkTrace rest pts vis /\ (x, y) ∉ visited s')
  /\ ((x, y) ∉ vis -> 0 <= x < width -> 0 <= y < height -> ~ bright ->
        s' = mkTrace (rev (neighbors x y) ++ rest) (pts ++ [(x, y)])
                     ({[ (x, y) ]} ∪ vis)
        /\ forall q, q ∈ neighbors x y ->
             length (filter (fun p => p = q) (stack s'))
             = S (length (filter (fun p => p = q) rest)))
  /\ (length (neighbors x y) = 8%nat
      /\ forall q, q ∈ neighbors x y
           <-> exists dx dy, dx ∈ offsets /\ dy ∈ offsets
                             /\ (dx, dy) <> (0, 0) /\ q = (x + dx, y + dy)).
Proof.
  intros s s' index bright.
  assert (Hin : (x, y) ∉ vis -> 0 <= x < width -> 0 <= y < height ->
                s' = if num_ge (pixel_brightness (data img) width x y) thr
                     then mkTrace rest pts vis
                     else mkTrace (rev (neighbors x y) ++ rest)
                                  (pts ++ [(x, y)]) ({[ (x, y) ]} ∪ vis)).
  { intros Hv Hx Hy. unfold s', trace_iter. simpl.
    rewrite bool_decide_eq_false_2 by exact Hv. simpl.
    destruct (out_of_bounds width height x y) eqn:Hb; [|reflexivity].
    apply out_of_bounds_true in Hb. lia. }
  assert (Hbright : num_ge (pixel_brightness (data img) width x y) thr = true
                    <-> bright).
  { unfold pixel_brightness, bright. fold index.
    destruct (data_at (data img) index) as [r|];
      destruct (data_at (data img) (index + 1)) as [g|];
      destruct (data_at (data img) (index + 2)) as [b|];
      try (split; [discriminate | intros (? & ? & ? & ? & ? & ? & ?);
                                  discriminate]).
    rewrite num_ge_brightness. split.
    - intros H. exists r, g, b. auto.
    - intros (r' & g' & b' & Hr & Hg & Hb & H). congruence. }
  split; [|split; [|split; [|split]]].
  - intros H. unfold s', trace_iter. simpl.
    destruct (bool_decide ((x, y) ∈ vis)) eqn:Hv; [reflexivity|]. simpl.
    apply bool_decide_eq_false in Hv.
    destruct H as [H | H]; [contradiction|].
    apply out_of_bounds_true in H. now rewrite H.
  - intros Hv Hx Hy Hb. apply Hbright in Hb.
    rewrite (Hin Hv Hx Hy), Hb. split; [reflexivity | exact Hv].
  - intros Hv Hx Hy Hb.
    assert (Hge : num_ge (pixel_brightness (data img) width x y) thr = false).
    { destruct (num_ge _ thr) eqn:E; [|reflexivity].
      exfalso. apply Hb, Hbright. reflexivity. }
    rewrite (Hin Hv Hx Hy), Hge. split; [reflexivity|].
    intros q Hq. cbn [stack].
    rewrite filter_app, length_app, (neighbors_once x y q Hq). reflexivity.
  - reflexivity.
  - apply elem_of_neighbors.
Qed.

Lemma tracePath_pop_step_witness :
  trace_iter black8 8 8 128 (mkTrace [(0, 0)] [] ∅)
  = mkTrace (rev (neighbors 0 0) ++ []) ([] ++ [(0, 0)]) ({[ (0, 0) ]} ∪ ∅).
Proof.
  destruct (tracePath_pop_step black8 8 8 128 0 0 [] [] ∅) as (_ & _ & H & _).
  apply H.
  - apply not_elem_of_empty.
  - lia.
  - lia.
  - intros (r & g & b & Hr & Hg & Hb & Hsum).
    vm_compute in Hr, Hg, Hb.
    injection Hr as <-. injection Hg as <-. injection Hb as <-. lia.
Defined.

(** ** Emission of a traced region *)

(** C4: at an unvisited ink sample (brightness below the threshold, alpha
    above 128) a region is traced.  When the trace collects fewer than 3
    points nothing is appended to the markup; when it collects 3 or more,
    one path element is appended, spelled out here character by character:
    its geometry moves to the first point, draws a line to each later point
    in collection order and closes; its fill and opacity are those of the
    sample. *)
Theorem region_emitted_iff_three_points
    (img : ImageData) (width height thr x y r g b a : Z)
    (vis : gset point) (svgPaths : string) :
  let index := (y * width + x) * 4 in
  (x, y) ∉ vis ->
  data_at (data img) index = Some r ->
  data_at (data img) (index + 1) = Some g ->
  data_at (data img) (index + 2) = Some b ->
  data_at (data img) (index + 3) = Some a ->
  r + g + b < 3 * thr ->
  128 < a ->
  exists s',
    trace_loop (trace_fuel (trace_init x y vis)) img width height thr
               (trace_init x y vis) = Some s'
    /\ ((length (points s') < 3)%nat ->
          (tracePath x y img width height thr vis).1 = ""
          /\ scan_sample img width height thr (vis, svgPaths) y x
             = (visited s', svgPaths))
    /\ ((3 <= length (points s'))%nat ->
          exists p0 rest,
            points s' = p0 :: rest
            /\ let q := String "034"%char "" in
               let d :=
                 "M " +:+ Js.show_Z p0.1 +:+ " " +:+ Js.show_Z p0.2
                 +:+ foldr (fun p acc =>
                              " L " +:+ Js.show_Z p.1 +:+ " "
                              +:+ Js.show_Z p.2 +:+ acc)
                           " Z" rest in
               scan_sample img width height thr (vis, svgPaths) y x
               = (visited s',
                  svgPaths
                  +:+ "<path d=" +:+ q +:+ d +:+ q
                  +:+ " fill=" +:+ q
                  +:+ "rgb(" +:+ Js.show_Z r +:+ "," +:+ Js.show_Z g +:+ ","
                  +:+ Js.show_Z b +:+ ")" +:+ q
                  +:+ " opacity=" +:+ q +:+ Js.show_div255 a +:+ q
                  +:+ " />" +:+ String "010"%char "")).
Proof.
  intros index Hv Hr Hg Hb Ha Hink Halpha.
  destruct (tracePath_result img width height thr x y vis)
    as (s' & Hl & _ & Ht).
  exists s'. split; [exact Hl|].
  assert (Hscan : scan_sample img width height thr (vis, svgPaths) y x
                  = if (10 <? String.length (path_of_points (points s')))%nat
                    then (visited s',
                          svgPaths +:+ path_element (path_of_points (points s'))
                                         (Some r) (Some g) (Some b) (Some a))
                    else (visited s', svgPaths)).
  { unfold scan_sample. rewrite bool_decide_eq_false_2 by exact Hv.
    fold index. rewrite Hr, Hg, Hb, Ha.
    replace (num_lt (brightness (Some r) (Some g) (Some b)) thr) with true
      by (symmetry; now apply num_lt_brightness).
    replace (num_gt (Some a) 128) with true
      by (symmetry; now apply Z.ltb_lt).
    simpl. rewrite Ht. reflexivity. }
  split.
  - intros Hshort. rewrite Ht, Hscan, (path_of_points_short _ Hshort).
    split; reflexivity.
  - intros Hlong. rewrite Hscan.
    pose proof (path_of_points_long _ Hlong) as Hlen.
    apply Nat.ltb_lt in Hlen. rewrite Hlen.
    destruct (points s') as [|p0 rest] eqn:Hp; [simpl in Hlong; lia|].
    exists p0, rest. split; [reflexivity|].
    rewrite (path_of_points_written p0 rest Hlong).
    reflexivity.
Qed.

Lemma region_emitted_iff_three_points_witness :
  scan_sample black8 8 8 128 (∅, "") 0 0
  = (list_to_set (sample_grid 8 8),
     "<path d=" +:+ String "034"%char "M 0 0 L 4 4 L 4 0 L 0 4 Z"
     +:+ String "034"%char " fill=" +:+ String "034"%char "rgb(0,0,0)"
     +:+ String "034"%char " opacity=" +:+ String "034"%char "1"
     +:+ String "034"%char " />" +:+ String "010"%char "").
Proof.
  destruct (region_emitted_iff_three_points
              black8 8 8 128 0 0 0 0 0 255 ∅ "")
    as (s' & Hl & _ & Hlong);
    [ apply not_elem_of_empty | reflexivity | reflexivity | reflexivity
    | reflexivity | lia | lia | ].
  vm_compute in Hl. injection Hl as Hs. subst s'.
  destruct Hlong as (p0 & rest & Hp & H); [simpl; lia|].
  injection Hp as <- <-. cbv zeta in H. rewrite H.
  vm_compute. reflexivity.
Defined.

(** ** White buffers *)








(** ** The 8 x 8 black buffer *)

(** C6: with threshold 128 the 8 x 8 opaque black buffer gives the document
    written out below: exactly one path element, with fill [rgb(0,0,0)] and
    opacity [1].  Its trace visits 4 points (at most 50), the 2 x 2 sample
    grid at stride 4. *)
Theorem black_8x8_single_path (st : AppState) :
  threshold (svgTraceSettings st) = 128 ->
  (let q := String "034"%char "" in
   let nl := String "010"%char "" in
   convertImageDataToSvg st black8 8 8
   = "<svg width=" +:+ q +:+ "8" +:+ q +:+ " height=" +:+ q +:+ "8" +:+ q
     +:+ " xmlns=" +:+ q +:+ "http://www.w3.org/2000/svg" +:+ q +:+ ">" +:+ nl
     +:+ "<path d=" +:+ q +:+ "M 0 0 L 4 4 L 4 0 L 0 4 Z" +:+ q
     +:+ " fill=" +:+ q +:+ "rgb(0,0,0)" +:+ q
     +:+ " opacity=" +:+ q +:+ "1" +:+ q +:+ " />" +:+ nl
     +:+ nl +:+ "</svg>")
  /\ count_char "<" (convertImageDataToSvg st black8 8 8) = 3%nat
  /\ exists s',
       trace_loop (trace_fuel (trace_init 0 0 ∅)) black8 8 8 128
                  (trace_init 0 0 ∅) = Some s'
       /\ points s' = [(0, 0); (4, 4); (4, 0); (0, 4)]
       /\ points s' ≡ₚ sample_grid 8 8
       /\ visited s' = list_to_set (sample_grid 8 8)
       /\ (length (points s') <= 50)%nat.
Proof.
  intros Hthr. split; [|split].
  - unfold convertImageDataToSvg. rewrite Hthr. vm_compute. reflexivity.
  - unfold convertImageDataToSvg. rewrite Hthr. vm_compute. reflexivity.
  - eexists. split; [vm_compute; reflexivity|].
    split; [vm_compute; reflexivity|].
    split; [vm_compute; solve_Permutation|].
    split; [vm_compute; reflexivity | simpl; lia].
Qed.

Lemma black_8x8_single_path_witness :
  threshold (svgTraceSettings initialState) = 128
  /\ convertImageDataToSvg initialState black8 8 8
     = "<svg width=" +:+ String "034"%char "8"
       +:+ String "034"%char " height=" +:+ String "034"%char "8"
       +:+ String "034"%char " xmlns="
       +:+ String "034"%char "http://www.w3.org/2000/svg"
       +:+ String "034"%char ">" +:+ String "010"%char "<path d="
       +:+ String "034"%char "M 0 0 L 4 4 L 4 0 L 0 4 Z"
       +:+ String "034"%char " fill=" +:+ String "034"%char "rgb(0,0,0)"
       +:+ String "034"%char " opacity=" +:+ String "034"%char "1"
       +:+ String "034"%char " />" +:+ String "010"%char ""
       +:+ String "010"%char "</svg>".
Proof.
  split; [reflexivity|].
  pose proof (proj1 (black_8x8_single_path initialState eq_refl)) as H.
  cbv zeta in H. rewrite H. vm_compute. reflexivity.
Defined.

(** ** Determinism *)

Section SameSamples.

Variables img1 img2 : ImageData.
Variables width height thr : Z.
Hypothesis Hsame : same_samples (data img1) (data img2) width height.

Local Abbreviation on_grid := (fun p : point => p.1 mod 4 = 0 /\ p.2 mod 4 = 0).

Lemma same_byte (x y c : Z) :
  out_of_bounds width height x y = false ->
  x mod 4 = 0 -> y mod 4 = 0 -> 0 <= c < 4 ->
  data_at (data img1) ((y * width + x) * 4 + c)
  = data_at (data img2) ((y * width + x) * 4 + c).
Proof.
  intros Hb Hx Hy Hc. unfold out_of_bounds in Hb.
  rewrite !orb_false_iff in Hb. destruct Hb as [[[H1 H2] H3] H4].
  apply Z.ltb_ge in H1, H3. apply Z.leb_gt in H2, H4.
  apply Hsame; lia.
Qed.

Lemma same_brightness (x y : Z) :
  out_of_bounds width height x y = false ->
  x mod 4 = 0 -> y mod 4 = 0 ->
  pixel_brightness (data img1) width x y
  = pixel_brightness (data img2) width x y.
Proof.
  intros Hb Hx Hy.
  pose proof (same_byte x y 0 Hb Hx Hy ltac:(lia)) as H0.
  rewrite Z.add_0_r in H0.
  unfold pixel_brightness. cbv zeta.
  rewrite H0, (same_byte x y 1 Hb Hx Hy), (same_byte x y 2 Hb Hx Hy) by lia.
  reflexivity.
Qed.

(** The stack of a trace started on the grid holds grid points only, so a
    pass reads the same bytes from both buffers. *)
Lemma same_iter (s : trace_state) :
  Forall on_grid (stack s) ->
  trace_iter img1 width height thr s = trace_iter img2 width height thr s.
Proof.
  intros Hg. unfold trace_iter.
  destruct (stack s) as [|[x y] rest]; [reflexivity|].
  apply Forall_cons in Hg as [[Hx Hy] _]. cbn [fst snd] in Hx, Hy.
  destruct (bool_decide ((x, y) ∈ visited s)); [reflexivity|].
  destruct (out_of_bounds width height x y) eqn:Hb; [reflexivity|].
  cbn [orb]. now rewrite (same_brightness x y Hb Hx Hy).
Qed.

Lemma grid_iter (s : trace_state) :
  Forall on_grid (stack s) ->
  Forall on_grid (stack (trace_iter img1 width height thr s)).
Proof.
  intros Hg. unfold trace_iter.
  destruct (stack s) as [|[x y] rest] eqn:Hst; [now rewrite Hst|].
  apply Forall_cons in Hg as [[Hx Hy] Hrest]. cbn [fst snd] in Hx, Hy.
  destruct (_ || _); [exact Hrest|].
  destruct (num_ge _ _); [exact Hrest|].
  cbn [stack]. apply Forall_app. split; [|exact Hrest].
  apply Forall_forall. intros q Hq.
  apply elem_of_rev_list, neighbors_on_grid in Hq; assumption.
Qed.

Lemma same_loop (fuel : nat) (s : trace_state) :
  Forall on_grid (stack s) ->
  trace_loop fuel img1 width height thr s
  = trace_loop fuel img2 width height thr s.
Proof.
  revert s. induction fuel as [|fuel IH]; intros s Hg; [reflexivity|].
  cbn [trace_loop]. destruct (trace_cond s); [|reflexivity].
  rewrite <- (same_iter s Hg). apply IH, grid_iter, Hg.
Qed.

Lemma same_tracePath (x y : Z) (vis : gset point) :
  x mod 4 = 0 -> y mod 4 = 0 ->
  tracePath x y img1 width height thr vis
  = tracePath x y img2 width height thr vis.
Proof.
  intros Hx Hy. unfold tracePath. cbv zeta.
  rewrite same_loop; [reflexivity|].
  unfold trace_init. cbn [stack]. apply Forall_singleton. split; assumption.
Qed.

Lemma same_scan_sample (acc : gset point * string) (y x : Z) :
  x ∈ stride4 width -> y ∈ stride4 height ->
  scan_sample img1 width height thr acc y x
  = scan_sample img2 width height thr acc y x.
Proof.
  intros Hx Hy. apply elem_of_stride4 in Hx as [Hx Hmx], Hy as [Hy Hmy].
  pose proof (Hsame x y 0 Hx Hy Hmx Hmy ltac:(lia)) as H0.
  rewrite Z.add_0_r in H0.
  unfold scan_sample. destruct acc as [vis svgPaths].
  destruct (bool_decide ((x, y) ∈ vis)); [reflexivity|].
  cbv zeta.
  rewrite H0, (Hsame x y 1 Hx Hy Hmx Hmy), (Hsame x y 2 Hx Hy Hmx Hmy),
    (Hsame x y 3 Hx Hy Hmx Hmy) by lia.
  rewrite (same_tracePath x y vis Hmx Hmy). reflexivity.
Qed.

Lemma same_scan_row (acc : gset point * string) (y : Z) :
  y ∈ stride4 height ->
  scan_row img1 width height thr acc y = scan_row img2 width height thr acc y.
Proof.
  intros Hy. unfold scan_row. apply fold_left_ext_in.
  intros acc' x Hx. now apply same_scan_sample.
Qed.

Lemma same_scan_image :
  scan_image img1 width height thr = scan_image img2 width height thr.
Proof.
  unfold scan_image. apply fold_left_ext_in.
  intros acc y Hy. now apply same_scan_row.
Qed.

End SameSamples.

(** C8: the markup is a function of the threshold and of the bytes that the
    sampling loops read, and of nothing else.  Two runs with the same
    threshold on buffers that hold the same bytes at the sampled pixels, so
    in particular two runs on one buffer, return the same markup, whatever
    the rest of the component state is in either run and whatever the
    buffers hold elsewhere. *)
Theorem tracer_markup_determined_by_samples
    (st1 st2 : AppState) (img1 img2 : ImageData) (width height : Z) :
  threshold (svgTraceSettings st1) = threshold (svgTraceSettings st2) ->
  same_samples (data img1) (data img2) width height ->
  convertImageDataToSvg st1 img1 width height
  = convertImageDataToSvg st2 img2 width height.
Proof.
  intros Hthr Hsame. unfold convertImageDataToSvg. cbv zeta.
  rewrite Hthr, (same_scan_image img1 img2 width height _ Hsame).
  reflexivity.
Qed.

Lemma same_samples_refl (d : list byte) (width height : Z) :
  same_samples d d width height.
Proof. intros x y c _ _ _ _ _. reflexivity. Qed.

Lemma same_samples_speckled8 :
  same_samples (data black8) (data speckled8) 8 8.
Proof.
  intros x y c Hx Hy Hmx Hmy Hc.
  assert (Ex : x = 0 \/ x = 4) by (Z.to_euclidean_division_equations; lia).
  assert (Ey : y = 0 \/ y = 4) by (Z.to_euclidean_division_equations; lia).
  assert (Ec : c = 0 \/ c = 1 \/ c = 2 \/ c = 3) by lia.
  destruct Ex as [-> | ->], Ey as [-> | ->],
    Ec as [-> | [-> | [-> | ->]]]; reflexivity.
Defined.

Lemma tracer_markup_determined_by_samples_witness :
  data black8 <> data speckled8
  /\ convertImageDataToSvg initialState black8 8 8
     = convertImageDataToSvg pngLoaded speckled8 8 8.
Proof.
  split; [discriminate|].
  exact (tracer_markup_determined_by_samples
           initialState pngLoaded black8 speckled8 8 8
           eq_refl same_samples_speckled8).
Defined.

(** ** The artifact list *)

Lemma eqb_nonempty (s : string) : s <> "" -> String.eqb s "" = false.
Proof. apply String.eqb_neq. Qed.

(** *** The conversions of [src/unnamed/part_000] stop at [new Image()] *)

(** Once past the guard (and, for the vector-to-raster direction, with a
    drawing context) the [try] block raises at [new Image()]; all that is
    left of the call is the [catch] clause. *)
Lemma convertSvgToRaster_raises
    (fmt : Format) (env : RasterEnv) (st : AppState) (w : Browser) :
  fileContent st <> "" -> conversionMode st = SvgToRaster ->
  ctx_ok env = true ->
  convertSvgToRaster fmt env st w
  = (setIsConverting false st, emit ConsoleError w).
Proof.
  intros Hc Hm Hx. apply eqb_nonempty in Hc.
  unfold convertSvgToRaster. cbn [fileContent conversionMode setIsConverting].
  rewrite Hc, Hm, Hx. reflexivity.
Qed.

Lemma convertRasterToSvg_raises
    (parse : string -> Node) (env : TraceEnv) (st : AppState) (w : Browser) :
  fileContent st <> "" -> conversionMode st = RasterToSvg ->
  convertRasterToSvg parse env st w
  = (setIsConverting false st, emit ConsoleError w).
Proof.
  intros Hc Hm. apply eqb_nonempty in Hc.
  unfold convertRasterToSvg. rewrite Hc, Hm. reflexivity.
Qed.

(** Whatever the input, a vector-to-raster conversion of
    [src/unnamed/part_000] returns at the guard, returns for want of a
    drawing context, or raises. *)
Lemma convertSvgToRaster_cases
    (fmt : Format) (env : RasterEnv) (st : AppState) (w : Browser) :
  convertSvgToRaster fmt env st w = (st, w)
  \/ convertSvgToRaster fmt env st w = (setIsConverting true st, w)
  \/ convertSvgToRaster fmt env st w
     = (setIsConverting false st, emit ConsoleError w).
Proof.
  unfold convertSvgToRaster.
  destruct (String.eqb (fileContent st) "" || _); [now left|].
  destruct (ctx_ok env); [right; right | right; left]; reflexivity.
Qed.

(** The load handler of [convertRasterToSvg], had it run to its end, would
    have put the new artifact in the place of the whole list. *)
Lemma trace_onload_resets_artifacts
    (parse : string -> Node) (env : TraceEnv) (img : ImageData)
    (st : AppState) (w : Browser) :
  trace_ctx_ok env = true -> img_width img <> 0 -> img_height img <> 0 ->
  convertedFiles (trace_onload parse env img st w).1
  = [mkConverted (svg_name st) (next_url w) "SVG"].
Proof.
  intros Hx Hw Hh. apply Z.eqb_neq in Hw, Hh.
  unfold trace_onload. rewrite Hx, Hw, Hh. reflexivity.
Qed.


(** *** The updater of [src/unnamed/part_000] *)

Lemma replace_format_with (fmt : Format) (new : ConvertedFile)
    (prev : list ConvertedFile) :
  format new = Js.toUpperCase (format_string fmt) ->
  with_format (Js.toUpperCase (format_string fmt)) (replace_format fmt new prev)
  = [new].
Proof.
  intros Hn. unfold with_format, replace_format.
  rewrite filter_app, list_filter_filter.
  rewrite (filter_cons_True _ new []) by exact Hn.
  replace (filter _ prev) with (@nil ConvertedFile); [reflexivity|].
  induction prev as [|f l IH]; [reflexivity|].
  rewrite filter_cons_False; [exact IH | tauto].
Qed.

Lemma replace_format_without (fmt : Format) (new : ConvertedFile)
    (prev : list ConvertedFile) :
  format new = Js.toUpperCase (format_string fmt) ->
  without_format (Js.toUpperCase (format_string fmt)) (replace_format fmt new prev)
  = without_format (Js.toUpperCase (format_string fmt)) prev.
Proof.
  intros Hn. unfold without_format, replace_format.
  rewrite filter_app, list_filter_filter.
  rewrite (filter_cons_False _ new []) by (intros H; now apply H).
  rewrite filter_nil, app_nil_r.
  apply list_filter_iff. tauto.
Qed.

(** *** Vector to raster, [src/src/App.tsx] *)

Lemma convertToFormat_loaded
    (fmt : Format) (env : App.RasterEnv) (st : App.AppState) (w : Browser) :
  App.svgContent st <> "" ->
  App.ctx_ok env = true -> App.image_loaded env = true ->
  let u := next_url w in
  App.convertToFormat fmt env st w
  = App.raster_encoded fmt env (App.setIsConverting true st)
      (mkBrowser
         (delete u (<[u := mkBlob (App.svgContent st) "image/svg+xml"]> (urls w)))
         (S u)
         (log w ++ [CreateObjectURL u]
                ++ canvas_ops fmt (App.width st) (App.height st) (App.quality st)
                ++ [RevokeObjectURL u])).
Proof.
  intros Hc Hx Hl u. apply eqb_nonempty in Hc.
  unfold App.convertToFormat. rewrite Hc, Hx, Hl. simpl.
  unfold App.raster_onload, revokeObjectURL, emit, canvas_ops. subst u.
  destruct fmt; simpl; rewrite <- !app_assoc; reflexivity.
Qed.

(** The filter of [src/src/App.tsx] compares an upper-case tag with the
    lower-case parameter, so it keeps every artifact the component made. *)
Lemma app_replace_format_appends (fmt : Format) (new : ConvertedFile)
    (prev : list ConvertedFile) :
  Forall (fun f => format f = "PNG" \/ format f = "JPEG") prev ->
  App.replace_format fmt new prev = prev ++ [new].
Proof.
  intros H. unfold App.replace_format. f_equal.
  induction H as [|f l Hf _ IH]; [reflexivity|].
  rewrite filter_cons_True, IH; [reflexivity|].
  destruct fmt, Hf as [-> | ->]; discriminate.
Qed.

(** C2, on [src/src/App.tsx]: two PNG conversions in a row leave two
    artifacts tagged PNG in the list; the first one is not replaced. *)
Theorem convertToFormat_twice_keeps_both :
  let r1 := App.convertToFormat Png appHostOk appLoaded freshBrowser in
  let r2 := App.convertToFormat Png appHostOk r1.1 r1.2 in
  App.convertedFiles r2.1
  = [mkConverted "logo.png" 1%nat "PNG"; mkConverted "logo.png" 3%nat "PNG"]
  /\ length (with_format "PNG" (App.convertedFiles r2.1)) = 2%nat.
Proof. split; vm_compute; reflexivity. Qed.

(** ** The temporary handle of the source markup *)

Lemma app_raster_encoded_log (fmt : Format) (env : App.RasterEnv)
    (st : App.AppState) (w : Browser) (u : object_url) :
  u ∉ dom (urls w) -> next_url w = S u ->
  let w' := (App.raster_encoded fmt env st w).2 in
  (u ∉ live w')
  /\ exists after,
       log w' = log w ++ after
       /\ (after = [] /\ App.encoded env = None
           \/ after = [CreateObjectURL (S u)] /\ is_Some (App.encoded env)).
Proof.
  intros Hu Hn w'. unfold w', App.raster_encoded, live.
  destruct (App.encoded env) as [b|]; simpl.
  - split.
    + rewrite dom_insert_L, Hn. apply not_elem_of_union. split; [|exact Hu].
      apply not_elem_of_singleton. lia.
    + exists [CreateObjectURL (S u)]. rewrite Hn. split; [reflexivity|].
      right. split; [reflexivity | eexists; reflexivity].
  - split; [exact Hu|]. exists []. rewrite app_nil_r. split; [reflexivity|].
    left. split; reflexivity.
Qed.

(** C9, as the code has it.  In [src/src/App.tsx], when the drawing context
    is available and the image decodes, the handle allocated for the source
    markup is revoked inside the load handler, right after the canvas calls
    and before the encoding callback, and it is no longer held when the
    conversion ends, whether or not the encoder supplies a blob.  When the
    image does not decode, the handle is allocated and never revoked.  In
    [src/unnamed/part_000] the conversion allocates no handle at all: it
    leaves the store of object URLs as it was and at most logs an error. *)
Theorem source_url_released_on_load :
  (forall (fmt : Format) (env : App.RasterEnv) (st : App.AppState)
          (w : Browser),
      App.svgContent st <> "" ->
      App.ctx_ok env = true -> App.image_loaded env = true ->
      let u := next_url w in
      let w' := (App.convertToFormat fmt env st w).2 in
      (u ∉ live w')
      /\ exists after,
           log w' = log w ++ [CreateObjectURL u]
                          ++ canvas_ops fmt (App.width st) (App.height st)
                                        (App.quality st)
                          ++ [RevokeObjectURL u] ++ after
           /\ (after = [] /\ App.encoded env = None
               \/ after = [CreateObjectURL (S u)] /\ is_Some (App.encoded env)))
  /\ (forall (fmt : Format) (env : App.RasterEnv) (st : App.AppState)
             (w : Browser),
      App.svgContent st <> "" ->
      App.ctx_ok env = true -> App.image_loaded env = false ->
      let u := next_url w in
      let w' := (App.convertToFormat fmt env st w).2 in
      u ∈ live w' /\ log w' = log w ++ [CreateObjectURL u])
  /\ (forall (fmt : Format) (env : RasterEnv) (st : AppState) (w : Browser),
      let w' := (convertSvgToRaster fmt env st w).2 in
      urls w' = urls w /\ next_url w' = next_url w
      /\ (log w' = log w \/ log w' = log w ++ [ConsoleError])).
Proof.
  split; [|split].
  - intros fmt env st w Hc Hx Hl u w'. unfold w'.
    rewrite (convertToFormat_loaded fmt env st w Hc Hx Hl). fold u.
    match goal with
    | |- context [App.raster_encoded fmt env ?s ?b] =>
        destruct (app_raster_encoded_log fmt env s b u)
          as (Hu & after & Hlog & Ha)
    end.
    + cbn [urls]. rewrite dom_delete_L. apply not_elem_of_difference.
      right. now apply elem_of_singleton.
    + reflexivity.
    + split; [exact Hu|]. exists after. split; [|exact Ha].
      rewrite Hlog. cbn [log]. rewrite <- !app_assoc. reflexivity.
  - intros fmt env st w Hc Hx Hl u w'. apply eqb_nonempty in Hc.
    unfold w', App.convertToFormat. rewrite Hc, Hx, Hl.
    cbn [negb snd createObjectURL]. split; [|reflexivity].
    unfold live. cbn [urls]. rewrite dom_insert_L.
    apply elem_of_union. left. now apply elem_of_singleton.
  - intros fmt env st w w'. unfold w'.
    destruct (convertSvgToRaster_cases fmt env st w) as [-> | [-> | ->]];
      cbn [snd emit urls next_url log]; auto.
Qed.

Lemma source_url_released_on_load_witness :
  (0%nat ∉ live (App.convertToFormat Png appHostOk appLoaded freshBrowser).2)
  /\ log (App.convertToFormat Jpeg appHostOk appLoaded freshBrowser).2
     = [CreateObjectURL 0%nat; FillWhite 800 600;
        DrawImage (Some 800) (Some 600); ToBlob "image/jpeg" 1%Q;
        RevokeObjectURL 0%nat; CreateObjectURL 1%nat].
Proof.
  split.
  - refine (proj1 (proj1 source_url_released_on_load
                     Png appHostOk appLoaded freshBrowser _ eq_refl eq_refl)).
    simpl. congruence.
  - reflexivity.
Defined.

(** When the image fails to decode the load handler of [src/src/App.tsx]
    never runs, and the handle of the source markup stays held: the release
    is not independent of the outcome. *)
Lemma source_url_kept_on_decode_failure :
  let r := App.convertToFormat Png appHostDecodeFails appLoaded freshBrowser in
  next_url freshBrowser ∈ live r.2
  /\ log r.2 = [CreateObjectURL (next_url freshBrowser)].
Proof.
  split.
  - unfold live. simpl. rewrite dom_insert_L.
    apply elem_of_union. left. now apply elem_of_singleton.
  - reflexivity.
Qed.

(** ** The path extractor *)

Lemma omap_step {A B : Type} (f : A -> option B) (x : A) (l : list A) :
  omap f (x :: l)
  = match f x with
    | Some y => y :: omap f l
    | None => omap f l
    end.
Proof. reflexivity. Qed.

Lemma truthy_iff (v : option string) :
  truthy v = true <-> exists s, v = Some s /\ s <> "".
Proof.
  destruct v as [s|]; simpl.
  - rewrite negb_true_iff, String.eqb_neq. split.
    + intros H. exists s. auto.
    + intros (s' & [= <-] & H). exact H.
  - split; [discriminate | intros (s & H & _); discriminate].
Qed.

(** What [extractPaths] returns, whatever the document: the non-empty
    geometry strings of the path elements, in document order. *)
Lemma extractPaths_spec (parse : string -> Node) (svgContent : string) :
  extractPaths parse svgContent
  = filter (fun s => s <> "")
      (omap (getAttribute "d") (querySelectorAll "path" (parse svgContent))).
Proof.
  unfold extractPaths.
  induction (querySelectorAll "path" (parse svgContent)) as [|n l IH];
    [reflexivity|].
  rewrite fmap_cons, omap_step.
  destruct (getAttribute "d" n) as [s|] eqn:Hd; cbn beta iota.
  - destruct (decide (s = "")) as [-> | Hs].
    + rewrite filter_cons_False by (simpl; discriminate).
      rewrite filter_cons_False by (intros H; now apply H).
      exact IH.
    + rewrite filter_cons_True by (apply truthy_iff; eauto).
      rewrite filter_cons_True by exact Hs.
      rewrite fmap_cons, IH. reflexivity.
  - rewrite filter_cons_False by (simpl; discriminate). exact IH.
Qed.

(** C5, as the code has it: whatever the document, the extractor returns
    the geometry strings of the path elements whose geometry attribute is
    there and is not empty, one string per such element, in document
    order.  The path elements without the attribute, or with an empty one,
    and the other elements are left out and do not disturb the order of
    the rest. *)
Theorem extractPaths_document_order
    (parse : string -> Node) (svgContent : string) :
  let doc := parse svgContent in
  extractPaths parse svgContent
  = (fun n => default "" (getAttribute "d" n))
      <$> paths_with_nonempty_geometry doc
  /\ length (extractPaths parse svgContent)
     = length (paths_with_nonempty_geometry doc)
  /\ paths_with_nonempty_geometry doc `sublist_of` elements doc
  /\ Forall (fun n => tag_of n = "path"
                      /\ exists g, getAttribute "d" n = Some g /\ g <> "")
            (paths_with_nonempty_geometry doc)
  /\ forall n, n ∈ elements doc -> tag_of n = "path" ->
       (exists g, getAttribute "d" n = Some g /\ g <> "") ->
       n ∈ paths_with_nonempty_geometry doc.
Proof.
  intros doc.
  assert (H : extractPaths parse svgContent
              = (fun n => default "" (getAttribute "d" n))
                  <$> paths_with_nonempty_geometry doc).
  { rewrite extractPaths_spec. fold doc.
    unfold paths_with_nonempty_geometry, querySelectorAll.
    induction (elements doc) as [|n l IH]; [reflexivity|].
    destruct (decide (tag_of n = "path")) as [Ht | Ht].
    - rewrite (filter_cons_True _ n l) by exact Ht. rewrite omap_step.
      pose proof (eq_refl : nonempty_geometry n = nonempty_geometry n) as Hg.
      unfold nonempty_geometry in Hg at 2.
      destruct (getAttribute "d" n) as [[|c g]|] eqn:Hd; cbn beta iota.
      + rewrite filter_cons_False by (intros Hn; now apply Hn).
        rewrite filter_cons_False by (intros [_ Hn]; congruence).
        exact IH.
      + rewrite filter_cons_True by discriminate.
        rewrite filter_cons_True by (split; [exact Ht | exact Hg]).
        rewrite fmap_cons, Hd, IH. reflexivity.
      + rewrite filter_cons_False by (intros [_ Hn]; congruence).
        exact IH.
    - rewrite (filter_cons_False _ n l) by exact Ht.
      rewrite filter_cons_False by (intros [Hn _]; contradiction).
      exact IH. }
  split; [exact H|]. split; [rewrite H; apply length_fmap|].
  split; [apply sublist_filter|]. split.
  - apply Forall_forall. intros n Hn.
    apply list_elem_of_filter in Hn as [[Ht Hg] _]. split; [exact Ht|].
    unfold nonempty_geometry in Hg.
    destruct (getAttribute "d" n) as [[|c g]|]; try discriminate.
    exists (String c g). split; [reflexivity | discriminate].
  - intros n Hn Ht (g & Hg & Hne).
    apply list_elem_of_filter. split; [|exact Hn]. split; [exact Ht|].
    unfold nonempty_geometry. rewrite Hg.
    destruct g; [contradiction | reflexivity].
Qed.

(** On a document that mixes the three kinds of path element. *)
Lemma extractPaths_gappedDoc :
  extractPaths (fun _ => gappedDoc) "<svg/>" = ["M 0 0 L 1 1 Z"; "M 2 2 Z"]
  /\ length (paths_with_nonempty_geometry gappedDoc) = 2%nat
  /\ length (paths_with_geometry gappedDoc) = 3%nat.
Proof. repeat split. Qed.

(** A path element whose geometry attribute is the empty string has the
    attribute and yet contributes no string. *)
Lemma extractPaths_drops_empty_geometry :
  length (paths_with_geometry emptyGeometryDoc) = 1%nat
  /\ extractPaths (fun _ => emptyGeometryDoc) "<svg><path d=''/></svg>" = [].
Proof. split; reflexivity. Qed.

(** * Further properties *)

(** ** Invariants of the region trace *)

Lemma traced_spec (img : ImageData) (width height thr startX startY : Z)
    (vis : gset point) :
  trace_loop (trace_fuel (trace_init startX startY vis)) img width height thr
             (trace_init startX startY vis)
  = Some (traced img width height thr startX startY vis)
  /\ tracePath startX startY img width height thr vis
     = (path_of_points (points (traced img width height thr startX startY vis)),
        visited (traced img width height thr startX startY vis)).
Proof.
  destruct (tracePath_result img width height thr startX startY vis)
    as (s' & Hl & _ & Ht).
  unfold traced. rewrite Hl. simpl. split; [reflexivity | exact Ht].
Qed.

Section TraceInvariants.

Variable img : ImageData.
Variables width height thr : Z.

Local Abbreviation iter := (trace_iter img width height thr).
Local Abbreviation loop := (fun fuel => trace_loop fuel img width height thr).

(** The two ways a pass can go, with what the tests found. *)
Lemma trace_iter_outcome (s : trace_state) (p : point) (rest : list point) :
  stack s = p :: rest ->
  (iter s = mkTrace rest (points s) (visited s))
  \/ ((p ∉ visited s) /\ in_bounds width height p /\ dark img width thr p
      /\ iter s = mkTrace (rev (neighbors p.1 p.2) ++ rest)
                          (points s ++ [p]) ({[ p ]} ∪ visited s)).
Proof.
  intros Hst. unfold trace_iter. rewrite Hst. destruct p as [x y]. simpl.
  destruct (bool_decide ((x, y) ∈ visited s)) eqn:Hv; simpl; [now left|].
  destruct (out_of_bounds width height x y) eqn:Hb; [now left|].
  destruct (num_ge _ thr) eqn:Hd; [now left|].
  right. apply bool_decide_eq_false in Hv.
  split; [exact Hv|]. split; [|split; [exact Hd | reflexivity]].
  unfold in_bounds. simpl.
  assert (~ (x < 0 \/ width <= x \/ y < 0 \/ height <= y)).
  { intros H. apply out_of_bounds_true in H. congruence. }
  lia.
Qed.

(** A property kept by every pass holds when the loop exits. *)
Lemma trace_loop_invariant (P : trace_state -> Prop) :
  (forall s, trace_cond s = true -> P s -> P (iter s)) ->
  forall fuel s s', loop fuel s = Some s' -> P s -> P s'.
Proof.
  intros Hstep. induction fuel as [|fuel IH]; intros s s' H HP;
    simpl in H; [discriminate|].
  destruct (trace_cond s) eqn:Hc.
  - eapply IH; [exact H|]. now apply Hstep.
  - injection H as <-. exact HP.
Qed.

Lemma trace_cond_stack (s : trace_state) :
  trace_cond s = true -> exists p rest, stack s = p :: rest.
Proof.
  intros Hc. apply trace_cond_true in Hc as [Hs _].
  destruct (stack s) as [|p rest]; [simpl in Hs; lia | eauto].
Qed.

Lemma collected_fresh_iter (vis0 : gset point) (s : trace_state) :
  trace_cond s = true -> collected_fresh img width height thr vis0 s -> collected_fresh img width height thr vis0 (iter s).
Proof.
  intros Hc (Hv & Hnd & Hp).
  destruct (trace_cond_stack s Hc) as (p & rest & Hst).
  destruct (trace_iter_outcome s p rest Hst) as [-> | (Hnv & Hb & Hd & ->)].
  - repeat split; assumption || (intros; now apply Hp).
  - unfold collected_fresh. cbn [visited points].
    rewrite Hv in Hnv. apply not_elem_of_union in Hnv as [Hn0 Hnp].
    rewrite elem_of_list_to_set in Hnp.
    split; [|split].
    + rewrite Hv, list_to_set_app_L. simpl.
      rewrite (right_id_L ∅ (∪)), (comm_L (∪) {[ p ]}), (assoc_L (∪)).
      reflexivity.
    + apply NoDup_app. split; [exact Hnd|]. split; [|apply NoDup_singleton].
      intros q Hq Hq'. apply list_elem_of_singleton in Hq'. subst q. tauto.
    + intros q Hq. apply elem_of_app in Hq as [Hq | Hq]; [now apply Hp|].
      apply list_elem_of_singleton in Hq. subst q. tauto.
Qed.

Lemma neighbors_lattice (x y : Z) (q : point) :
  q ∈ neighbors x y -> q.1 mod 4 = x mod 4 /\ q.2 mod 4 = y mod 4.
Proof.
  intros H. apply elem_of_neighbors in H as (dx & dy & Hx & Hy & _ & ->).
  unfold offsets in Hx, Hy. simpl.
  repeat (apply elem_of_cons in Hx as [-> | Hx]);
    try (now apply elem_of_nil in Hx);
    repeat (apply elem_of_cons in Hy as [-> | Hy]);
    try (now apply elem_of_nil in Hy);
    split; Z.to_euclidean_division_equations; lia.
Qed.

Lemma on_lattice_iter (x0 y0 : Z) (s : trace_state) :
  trace_cond s = true -> on_lattice x0 y0 s -> on_lattice x0 y0 (iter s).
Proof.
  intros Hc Hl.
  destruct (trace_cond_stack s Hc) as (p & rest & Hst).
  assert (Hp : p.1 mod 4 = x0 mod 4 /\ p.2 mod 4 = y0 mod 4).
  { apply Hl. rewrite Hst. apply elem_of_app. left. now left. }
  destruct (trace_iter_outcome s p rest Hst) as [-> | (_ & _ & _ & ->)];
    intros q Hq; cbn [stack points] in Hq.
  - apply Hl. rewrite Hst.
    apply elem_of_app in Hq as [Hq | Hq]; apply elem_of_app;
      [left; now right | now right].
  - rewrite !elem_of_app in Hq. destruct Hq as [[Hq | Hq] | [Hq | Hq]].
    + apply elem_of_rev_list, neighbors_lattice in Hq. lia.
    + apply Hl. rewrite Hst. apply elem_of_app. left. now right.
    + apply Hl. apply elem_of_app. now right.
    + apply list_elem_of_singleton in Hq. now subst q.
Qed.

(** The points already collected stay where they are in the list. *)
Lemma trace_loop_prefix (fuel : nat) :
  forall s s', loop fuel s = Some s' -> points s `prefix_of` points s'.
Proof.
  induction fuel as [|fuel IH]; intros s s' H; simpl in H; [discriminate|].
  destruct (trace_cond s) eqn:Hc.
  - apply IH in H. etrans; [|exact H].
    destruct (trace_cond_stack s Hc) as (p & rest & Hst).
    destruct (trace_iter_outcome s p rest Hst) as [-> | (_ & _ & _ & ->)];
      simpl; [reflexivity | now apply prefix_app_r].
  - injection H as <-. reflexivity.
Qed.


Lemma chained_snoc (l : list point) (q : point) :
  chained l -> (exists p, p ∈ l /\ q ∈ neighbors p.1 p.2) -> chained (l ++ [q]).
Proof.
  intros Hl Hq l1 q' l2 Heq Hne.
  destruct l2 as [|x l2 _] using rev_ind.
  - apply app_inj_tail in Heq as [-> ->]. exact Hq.
  - rewrite app_comm_cons, app_assoc in Heq.
    apply app_inj_tail in Heq as [-> _]. now apply (Hl l1 q' l2).
Qed.

Lemma grown_from_iter (seed : point) (s : trace_state) :
  trace_cond s = true -> grown_from seed s -> grown_from seed (iter s).
Proof.
  intros Hc Hg.
  destruct (trace_cond_stack s Hc) as (p & rest & Hst).
  destruct (trace_iter_outcome s p rest Hst) as [-> | (_ & _ & _ & ->)];
    unfold grown_from; cbn [stack points].
  - destruct Hg as [[Hp Hs] | (Hh & Hch & Hs)].
    + left. split; [exact Hp|]. right.
      destruct Hs as [Hs | Hs]; rewrite Hst in Hs; [|discriminate].
      now injection Hs as _ ->.
    + right. split; [exact Hh|]. split; [exact Hch|].
      intros q Hq. apply Hs. rewrite Hst. now right.
  - right. destruct Hg as [[Hp Hs] | ((tl & Hh) & Hch & Hs)].
    + destruct Hs as [Hs | Hs]; rewrite Hst in Hs; [|discriminate].
      injection Hs as -> ->. rewrite Hp. cbn [app].
      split; [now exists []|]. split.
      * intros l1 q l2 Heq Hne. destruct l1 as [|a l1]; [congruence|].
        destruct l1; discriminate.
      * intros q Hq. rewrite app_nil_r in Hq. apply elem_of_rev_list in Hq.
        exists seed. split; [now left | exact Hq].
    + assert (Hp : exists p', p' ∈ points s /\ p ∈ neighbors p'.1 p'.2).
      { apply Hs. rewrite Hst. now left. }
      split; [exists (tl ++ [p]); now rewrite Hh|].
      split; [now apply chained_snoc|].
      intros q Hq. apply elem_of_app in Hq as [Hq | Hq].
      * apply elem_of_rev_list in Hq. exists p. split; [|exact Hq].
        apply elem_of_app. right. now left.
      * destruct (Hs q) as (p' & Hp' & Hn); [rewrite Hst; now right|].
        exists p'. split; [|exact Hn]. apply elem_of_app. now left.
Qed.

End TraceInvariants.


(** ** What a region trace collects *)

Lemma trace_loop_step (fuel : nat) (img : ImageData) (width height thr : Z)
    (s : trace_state) :
  trace_loop (S fuel) img width height thr s
  = if trace_cond s
    then trace_loop fuel img width height thr (trace_iter img width height thr s)
    else Some s.
Proof. reflexivity. Qed.

Lemma trace_init_first_pass (img : ImageData) (width height thr x y : Z)
    (vis : gset point) :
  trace_loop (trace_fuel (trace_init x y vis)) img width height thr
             (trace_init x y vis)
  = trace_loop 401 img width height thr
      (trace_iter img width height thr (trace_init x y vis)).
Proof.
  replace (trace_fuel (trace_init x y vis)) with (S 401) by reflexivity.
  rewrite trace_loop_step.
  replace (trace_cond (trace_init x y vis)) with true by reflexivity.
  reflexivity.
Qed.

(** A property that holds at the start and is kept by every pass holds
    for the state in which the trace ends. *)
Lemma traced_invariant (img : ImageData) (width height thr x y : Z)
    (vis : gset point) (P : trace_state -> Prop) :
  (forall s, trace_cond s = true -> P s ->
             P (trace_iter img width height thr s)) ->
  P (trace_init x y vis) ->
  P (traced img width height thr x y vis).
Proof.
  intros Hstep H0.
  destruct (traced_spec img width height thr x y vis) as [Hl _].
  revert Hl. generalize (trace_fuel (trace_init x y vis)) as fuel.
  generalize (traced img width height thr x y vis) as s'.
  intros s' fuel Hl.
  exact (trace_loop_invariant img width height thr P Hstep fuel _ _ Hl H0).
Qed.

Lemma traced_collected_fresh (img : ImageData) (width height thr x y : Z)
    (vis : gset point) :
  collected_fresh img width height thr vis (traced img width height thr x y vis).
Proof.
  apply traced_invariant.
  - intros s. apply collected_fresh_iter.
  - unfold collected_fresh, trace_init. cbn [visited points]. split; [|split].
    + rewrite list_to_set_nil, (right_id_L ∅ (∪)). reflexivity.
    + apply NoDup_nil_2.
    + intros p Hp. now apply elem_of_nil in Hp.
Qed.

(** X1: the visited set that [tracePath] leaves is the one it was given plus
    the points it collected; the collected points are pairwise distinct and
    none of them was visited before. *)
Theorem tracePath_marks_collected
    (img : ImageData) (width height thr x y : Z) (vis : gset point) :
  let s := traced img width height thr x y vis in
  tracePath x y img width height thr vis
  = (path_of_points (points s), vis ∪ list_to_set (points s))
  /\ NoDup (points s)
  /\ forall p, p ∈ points s -> p ∉ vis.
Proof.
  intros s. destruct (traced_spec img width height thr x y vis) as [_ Ht].
  destruct (traced_collected_fresh img width height thr x y vis)
    as (Hv & Hnd & Hp).
  fold s in Ht, Hv, Hnd, Hp.
  split; [now rewrite Ht, Hv|]. split; [exact Hnd|].
  intros p Hin. now apply Hp.
Qed.

(** X2: every collected point lies inside the image and its brightness is
    below the threshold. *)
Theorem tracePath_points_dark_in_bounds
    (img : ImageData) (width height thr x y : Z) (vis : gset point) (p : point) :
  p ∈ points (traced img width height thr x y vis) ->
  0 <= p.1 < width /\ 0 <= p.2 < height
  /\ forall r g b,
       data_at (data img) ((p.2 * width + p.1) * 4) = Some r ->
       data_at (data img) ((p.2 * width + p.1) * 4 + 1) = Some g ->
       data_at (data img) ((p.2 * width + p.1) * 4 + 2) = Some b ->
       r + g + b < 3 * thr.
Proof.
  intros Hin.
  destruct (traced_collected_fresh img width height thr x y vis)
    as (_ & _ & Hp).
  destruct (Hp p Hin) as (_ & [Hx Hy] & Hd).
  split; [exact Hx|]. split; [exact Hy|].
  intros r g b Hr Hg Hb. unfold dark, pixel_brightness in Hd.
  rewrite Hr, Hg, Hb in Hd.
  destruct (Z_lt_le_dec (r + g + b) (3 * thr)) as [Hlt | Hge]; [exact Hlt|].
  apply num_ge_brightness in Hge. congruence.
Qed.

Lemma traced_on_lattice
    (img : ImageData) (width height thr x y : Z) (vis : gset point) :
  on_lattice x y (traced img width height thr x y vis).
Proof.
  apply traced_invariant.
  - intros s0. apply on_lattice_iter.
  - intros q Hq. unfold trace_init in Hq. cbn [stack points app] in Hq.
    apply list_elem_of_singleton in Hq. now subst q.
Qed.

(** X3: every collected point is a whole number of strides away from the
    start point, in both axes. *)
Theorem tracePath_points_on_lattice
    (img : ImageData) (width height thr x y : Z) (vis : gset point) (p : point) :
  p ∈ points (traced img width height thr x y vis) ->
  p.1 mod 4 = x mod 4 /\ p.2 mod 4 = y mod 4.
Proof.
  intros Hin. apply (traced_on_lattice img width height thr x y vis).
  apply elem_of_app. now right.
Qed.

Lemma trace_iter_seed (img : ImageData) (width height thr x y : Z)
    (vis : gset point) :
  (x, y) ∉ vis -> in_bounds width height (x, y) -> dark img width thr (x, y) ->
  trace_iter img width height thr (trace_init x y vis)
  = mkTrace (rev (neighbors x y) ++ []) [(x, y)] ({[ (x, y) ]} ∪ vis).
Proof.
  intros Hv [Hx Hy] Hd. cbn [fst snd] in Hx, Hy.
  unfold trace_iter, trace_init. cbn [stack points visited app].
  rewrite bool_decide_eq_false_2 by exact Hv. cbn [orb].
  replace (out_of_bounds width height x y) with false.
  - unfold dark in Hd. cbn [fst snd] in Hd. rewrite Hd. reflexivity.
  - symmetry. destruct (out_of_bounds width height x y) eqn:Hb; [|reflexivity].
    apply out_of_bounds_true in Hb. lia.
Qed.

Lemma traced_starts_at_seed
    (img : ImageData) (width height thr x y : Z) (vis : gset point) :
  (x, y) ∉ vis -> in_bounds width height (x, y) -> dark img width thr (x, y) ->
  exists rest,
    points (traced img width height thr x y vis) = (x, y) :: rest.
Proof.
  intros Hv Hb Hd.
  destruct (traced_spec img width height thr x y vis) as [Hl _].
  rewrite trace_init_first_pass, (trace_iter_seed _ _ _ _ _ _ _ Hv Hb Hd) in Hl.
  revert Hl. generalize 401%nat as fuel. intros fuel Hl.
  apply trace_loop_prefix in Hl as [rest Hrest].
  exists rest. exact Hrest.
Qed.


(** X5: started on a point that is visited, outside the image or not below
    the threshold, [tracePath] returns the empty string and leaves the
    visited set as it was. *)
Theorem tracePath_rejected_seed
    (img : ImageData) (width height thr x y : Z) (vis : gset point) :
  (x, y) ∈ vis \/ ~ in_bounds width height (x, y)
  \/ ~ dark img width thr (x, y) ->
  tracePath x y img width height thr vis = ("", vis).
Proof.
  intros H.
  assert (Hi : trace_iter img width height thr (trace_init x y vis)
               = mkTrace [] [] vis).
  { unfold trace_iter, trace_init. cbn [stack points visited].
    destruct (bool_decide ((x, y) ∈ vis)) eqn:Hv; [reflexivity|]. cbn [orb].
    apply bool_decide_eq_false in Hv.
    destruct (out_of_bounds width height x y) eqn:Hb; [reflexivity|].
    destruct (num_ge _ thr) eqn:Hd; [reflexivity|]. exfalso.
    destruct H as [H | [H | H]]; [tauto | | now apply H].
    apply H. unfold in_bounds. cbn [fst snd].
    assert (~ (x < 0 \/ width <= x \/ y < 0 \/ height <= y)).
    { intros H'. apply out_of_bounds_true in H'. congruence. }
    lia. }
  unfold tracePath. rewrite trace_init_first_pass, Hi.
  change 401%nat with (S 400). rewrite trace_loop_step. reflexivity.
Qed.

(** X6: the region is connected: every collected point after the first is
    one of the eight stride-4 neighbours of a point collected before it. *)
Theorem tracePath_region_connected
    (img : ImageData) (width height thr x y : Z) (vis : gset point)
    (before after : list point) (q : point) :
  points (traced img width height thr x y vis) = before ++ q :: after ->
  before <> [] ->
  exists p, p ∈ before /\ q ∈ neighbors p.1 p.2.
Proof.
  intros Heq Hne.
  assert (H : grown_from (x, y) (traced img width height thr x y vis)).
  { apply traced_invariant.
    - intros s0. apply grown_from_iter.
    - left. unfold trace_init. cbn [stack points].
      split; [reflexivity | now left]. }
  destruct H as [[Hp _] | (_ & Hch & _)].
  - rewrite Hp in Heq. destruct before; discriminate.
  - now apply (Hch before q after).
Qed.

Lemma render_regions_snoc (rs : list region) (rg : region) :
  render_regions (rs ++ [rg]) = render_regions rs +:+ render_region rg.
Proof.
  induction rs as [|r rs IH]; simpl.
  - apply append_empty_r.
  - now rewrite IH, append_assoc.
Qed.

Lemma elem_of_sample_grid (width height : Z) (p : point) :
  p ∈ sample_grid width height
  <-> p.1 ∈ stride4 width /\ p.2 ∈ stride4 height.
Proof.
  unfold sample_grid. rewrite list_elem_of_bind. split.
  - intros (y & Hp & Hy). apply list_elem_of_bind in Hp as (x & Hp & Hx).
    apply list_elem_of_singleton in Hp. subst p. simpl. auto.
  - intros [Hx Hy]. exists p.2. split; [|exact Hy].
    apply list_elem_of_bind. exists p.1. split; [|exact Hx].
    apply list_elem_of_singleton. now destruct p.
Qed.

(** The ink test of the scan, on the bytes. *)
Lemma ink_test (r g b a : option Z) (thr : Z) :
  num_lt (brightness r g b) thr && num_gt a 128 = true ->
  exists r' g' b' a',
    r = Some r' /\ g = Some g' /\ b = Some b' /\ a = Some a'
    /\ r' + g' + b' < 3 * thr /\ 128 < a'.
Proof.
  intros H. apply andb_prop in H as [Hl Ha].
  destruct r as [r'|], g as [g'|], b as [b'|]; try discriminate.
  destruct a as [a'|]; [|discriminate].
  exists r', g', b', a'. apply num_lt_brightness in Hl.
  apply Z.ltb_lt in Ha. auto 10.
Qed.

Lemma dark_of_sum (img : ImageData) (width thr x y r g b : Z) :
  data_at (data img) ((y * width + x) * 4) = Some r ->
  data_at (data img) ((y * width + x) * 4 + 1) = Some g ->
  data_at (data img) ((y * width + x) * 4 + 2) = Some b ->
  r + g + b < 3 * thr ->
  dark img width thr (x, y).
Proof.
  intros Hr Hg Hb Hs. unfold dark, pixel_brightness. cbn [fst snd].
  rewrite Hr, Hg, Hb.
  destruct (num_ge _ thr) eqn:E; [|reflexivity].
  apply num_ge_brightness in E. lia.
Qed.

(** X4: started on an unvisited point inside the image whose brightness is
    below the threshold, the trace collects the start point first; a path
    that comes out of it begins there. *)
Theorem tracePath_starts_at_seed
    (img : ImageData) (width height thr x y r g b : Z) (vis : gset point) :
  (x, y) ∉ vis -> 0 <= x < width -> 0 <= y < height ->
  data_at (data img) ((y * width + x) * 4) = Some r ->
  data_at (data img) ((y * width + x) * 4 + 1) = Some g ->
  data_at (data img) ((y * width + x) * 4 + 2) = Some b ->
  r + g + b < 3 * thr ->
  exists rest,
    points (traced img width height thr x y vis) = (x, y) :: rest.
Proof.
  intros Hv Hx Hy Hr Hg Hb Hsum.
  apply traced_starts_at_seed; [exact Hv | split; assumption |].
  now apply (dark_of_sum img width thr x y r g b).
Qed.

Lemma traced_length (img : ImageData) (width height thr x y : Z)
    (vis : gset point) :
  (length (points (traced img width height thr x y vis)) <= 50)%nat.
Proof.
  destruct (traced_spec img width height thr x y vis) as [Hl _].
  revert Hl. generalize (trace_fuel (trace_init x y vis)) as fuel.
  intros fuel Hl.
  pose proof (trace_loop_points _ _ _ _ _ _ _ Hl) as Hp.
  unfold trace_init in Hp. cbn [points length] in Hp. lia.
Qed.

Lemma traced_on_grid (img : ImageData) (width height thr x y : Z)
    (vis : gset point) (p : point) :
  x ∈ stride4 width -> y ∈ stride4 height ->
  p ∈ points (traced img width height thr x y vis) ->
  p ∈ sample_grid width height.
Proof.
  intros Hx Hy Hp. apply elem_of_stride4 in Hx, Hy.
  destruct (traced_collected_fresh img width height thr x y vis)
    as (_ & _ & Hin).
  destruct (Hin p Hp) as (_ & [Hbx Hby] & _).
  destruct (traced_on_lattice img width height thr x y vis p) as [Hlx Hly];
    [apply elem_of_app; now right|].
  apply elem_of_sample_grid. split; apply elem_of_stride4; split;
    try assumption; lia.
Qed.

Section Scan.

Variable img : ImageData.
Variables width height thr : Z.

Lemma scan_sample_inv (rs : list region) (acc : gset point * string) (y x : Z) :
  x ∈ stride4 width -> y ∈ stride4 height ->
  scan_inv img width height thr rs acc ->
  exists rs', scan_inv img width height thr rs'
                (scan_sample img width height thr acc y x).
Proof.
  intros Hx Hy Hinv. destruct acc as [vis svgPaths]. unfold scan_sample.
  destruct (bool_decide ((x, y) ∈ vis)) eqn:Hv; [now exists rs|].
  apply bool_decide_eq_false in Hv.
  destruct (num_lt _ thr && num_gt _ 128) eqn:Hink; [|now exists rs].
  apply ink_test in Hink
    as (r & g & b & a & Hr & Hg & Hb & Ha & Hsum & Halpha).
  rewrite Hr, Hg, Hb, Ha.
  destruct (traced_spec img width height thr x y vis) as [_ Ht].
  destruct (traced_collected_fresh img width height thr x y vis)
    as (Hvis & Hnd & Hfresh).
  rewrite Ht, Hvis.
  set (ps := points (traced img width height thr x y vis)) in *.
  destruct Hinv as (Hsvg & Hno & Hsub & Hgrid & Hok).
  cbn [fst snd] in Hsvg, Hsub, Hgrid.
  assert (Hgrid' : forall p, p ∈ vis ∪ list_to_set ps ->
                             p ∈ sample_grid width height).
  { intros p Hp. apply elem_of_union in Hp as [Hp | Hp]; [now apply Hgrid|].
    apply elem_of_list_to_set in Hp. now apply (traced_on_grid img _ _ thr x y vis). }
  destruct (10 <? String.length (path_of_points ps))%nat eqn:Hlen.
  - assert (H3 : (3 <= length ps)%nat).
    { destruct (le_lt_dec 3 (length ps)) as [H | H]; [exact H|].
      rewrite (path_of_points_short _ H) in Hlen. discriminate. }
    exists (rs ++ [(ps, (r, g, b, a))]).
    unfold scan_inv. cbn [fst snd].
    rewrite render_regions_snoc, fmap_app, concat_app. simpl.
    rewrite app_nil_r. split; [now rewrite Hsvg|]. split; [|split; [|split]].
    + apply NoDup_app. split; [exact Hno|]. split; [|exact Hnd].
      intros p Hp Hp'. apply (proj1 (Hfresh p Hp')). now apply Hsub.
    + intros p Hp. apply elem_of_app in Hp as [Hp | Hp]; apply elem_of_union;
        [left; now apply Hsub | right; now apply elem_of_list_to_set].
    + exact Hgrid'.
    + apply Forall_app. split; [exact Hok|]. apply Forall_singleton.
      unfold region_ok. split; [split; [exact H3 | apply traced_length]|].
      apply elem_of_stride4 in Hx as Hx', Hy as Hy'.
      destruct (traced_starts_at_seed img width height thr x y vis)
        as [rest Hrest]; [exact Hv | split; simpl; lia
                         | now apply (dark_of_sum img width thr x y r g b) |].
      exists x, y, rest. fold ps in Hrest. auto 10.
  - exists rs. unfold scan_inv. cbn [fst snd].
    split; [exact Hsvg|]. split; [exact Hno|]. split; [|split].
    + intros p Hp. apply elem_of_union. left. now apply Hsub.
    + exact Hgrid'.
    + exact Hok.
Qed.

Lemma scan_row_inv (rs : list region) (acc : gset point * string) (y : Z) :
  y ∈ stride4 height ->
  scan_inv img width height thr rs acc ->
  exists rs', scan_inv img width height thr rs'
                (scan_row img width height thr acc y).
Proof.
  intros Hy. unfold scan_row.
  assert (Hxs : forall x, x ∈ stride4 width -> x ∈ stride4 width) by auto.
  revert Hxs rs acc. generalize (stride4 width) at 1 3 as xs.
  induction xs as [|x xs IH]; intros Hxs rs acc Hinv; simpl; [eauto|].
  destruct (scan_sample_inv rs acc y x) as [rs' Hinv'];
    [apply Hxs; now left | exact Hy | exact Hinv |].
  apply (IH (fun x' Hx' => Hxs x' (list_elem_of_further _ _ _ Hx')) rs' _ Hinv').
Qed.

Lemma scan_image_inv :
  exists rs, scan_inv img width height thr rs (scan_image img width height thr).
Proof.
  unfold scan_image.
  assert (H0 : scan_inv img width height thr [] (∅, "")).
  { unfold scan_inv. simpl. split; [reflexivity|]. split; [apply NoDup_nil_2|].
    split; [intros p Hp; now apply elem_of_nil in Hp|].
    split; [intros p Hp; now apply not_elem_of_empty in Hp | constructor]. }
  assert (Hys : forall y, y ∈ stride4 height -> y ∈ stride4 height) by auto.
  revert Hys H0. generalize (@nil region) as rs.
  generalize ((∅, "") : gset point * string) as acc.
  generalize (stride4 height) at 1 3 as ys.
  induction ys as [|y ys IH]; intros acc rs Hys Hinv; simpl; [eauto|].
  destruct (scan_row_inv rs acc y) as [rs' Hinv'];
    [apply Hys; now left | exact Hinv |].
  apply (IH _ rs' (fun y' Hy' => Hys y' (list_elem_of_further _ _ _ Hy')) Hinv').
Qed.

End Scan.

(** ** The document as a whole *)

(** X7: the body of the document is the concatenation of the path elements
    of some regions that are well formed, pairwise disjoint, free of
    repeated points and made of samples of the grid. *)
Theorem convertImageDataToSvg_regions
    (st : AppState) (img : ImageData) (width height : Z) :
  exists rs : list region,
    convertImageDataToSvg st img width height
    = svg_document width height (render_regions rs)
    /\ Forall (region_ok img width (threshold (svgTraceSettings st))) rs
    /\ NoDup (concat rs.*1)
    /\ forall p, p ∈ concat rs.*1 -> p ∈ sample_grid width height.
Proof.
  destruct (scan_image_inv img width height (threshold (svgTraceSettings st)))
    as (rs & Hsvg & Hnd & Hsub & Hgrid & Hok).
  exists rs. unfold convertImageDataToSvg. rewrite Hsvg.
  split; [reflexivity|]. split; [exact Hok|]. split; [exact Hnd|].
  intros p Hp. apply Hgrid, Hsub, Hp.
Qed.

Lemma regions_length (img : ImageData) (width thr : Z) (rs : list region) :
  Forall (region_ok img width thr) rs ->
  (3 * length rs <= length (concat rs.*1))%nat.
Proof.
  induction 1 as [|[ps [[[r g] b] a]] rs [Hlen _] _ IH]; [simpl; lia|].
  rewrite fmap_cons. cbn [concat fst length]. rewrite length_app. lia.
Qed.

(** X8: an image with fewer than 3 samples gives a document without any
    path element, whatever its pixels and the threshold. *)
Theorem small_image_has_no_paths
    (st : AppState) (img : ImageData) (width height : Z) :
  (length (sample_grid width height) < 3)%nat ->
  convertImageDataToSvg st img width height = svg_document width height "".
Proof.
  intros Hsmall.
  destruct (scan_image_inv img width height (threshold (svgTraceSettings st)))
    as (rs & Hsvg & Hnd & Hsub & Hvis & Hok).
  unfold convertImageDataToSvg. rewrite Hsvg.
  assert (Hgrid : forall p, p ∈ concat rs.*1 -> p ∈ sample_grid width height)
    by (intros p Hp; apply Hvis, Hsub, Hp).
  pose proof (regions_length _ _ _ _ Hok) as Hlen.
  pose proof (submseteq_length _ _ (NoDup_submseteq _ _ Hnd Hgrid)) as Hle.
  destruct rs as [|rg rs]; [reflexivity | cbn [length] in Hlen; lia].
Qed.

Lemma small_image_has_no_paths_witness :
  convertImageDataToSvg initialState black8 4 8 = svg_document 4 8 "".
Proof.
  apply (small_image_has_no_paths initialState black8 4 8).
  vm_compute. lia.
Defined.




(** ** Transparent buffers *)

Lemma transparent_alpha (d : list byte) (i a : Z) :
  all_transparent d -> i mod 4 = 3 -> data_at d i = Some a -> a <= 128.
Proof.
  intros Ht Hi. unfold data_at.
  destruct (i <? 0) eqn:Hneg; [discriminate|]. apply Z.ltb_ge in Hneg.
  destruct (d !! Z.to_nat i) as [b|] eqn:Hb; [|discriminate].
  simpl. intros [= <-]. apply (Ht _ _ Hb).
  apply Nat2Z.inj. rewrite Nat2Z.inj_mod, Z2Nat.id by exact Hneg. exact Hi.
Qed.

Lemma scan_sample_transparent (img : ImageData) (width height thr y x : Z)
    (acc : gset point * string) :
  all_transparent (data img) ->
  scan_sample img width height thr acc y x = acc.
Proof.
  intros Ht. unfold scan_sample. destruct acc as [vis svgPaths].
  destruct (bool_decide ((x, y) ∈ vis)); [reflexivity|].
  replace (num_gt (data_at (data img) ((y * width + x) * 4 + 3)) 128)
    with false; [now rewrite andb_false_r|].
  symmetry. destruct (data_at _ ((y * width + x) * 4 + 3)) as [a|] eqn:Ha;
    [|reflexivity].
  apply Z.ltb_ge. apply (transparent_alpha _ _ _ Ht) in Ha; [exact Ha|].
  rewrite Z.add_mod, Z_mod_mult by lia. reflexivity.
Qed.

(** X9: a buffer in which no pixel has an alpha above 128 gives a document
    without any path element; no such pixel starts a region. *)
Theorem transparent_buffer_has_no_paths
    (st : AppState) (img : ImageData) (width height : Z) :
  all_transparent (data img) ->
  convertImageDataToSvg st img width height = svg_document width height "".
Proof.
  intros Ht. unfold convertImageDataToSvg.
  replace (scan_image img width height (threshold (svgTraceSettings st)))
    with (∅ : gset point, ""); [reflexivity|].
  symmetry. unfold scan_image.
  induction (stride4 height) as [|y ys IH]; [reflexivity|].
  simpl. replace (scan_row img width height _ (∅, "") y) with
    (∅ : gset point, ""); [exact IH|].
  unfold scan_row. generalize (∅ : gset point, "").
  induction (stride4 width) as [|x xs IHx]; intros acc; [reflexivity|].
  simpl. rewrite (scan_sample_transparent _ _ _ _ _ _ _ Ht). apply IHx.
Qed.

(** ** Counting the path elements *)









(** ** The conversions of [src/unnamed/part_000] *)


(** X12: once a vector-to-raster conversion of [src/unnamed/part_000] has
    passed its guard, the busy flag ends cleared when a drawing context is
    there (the [catch] clause clears it) and stays set when there is none
    (the early [return] skips every reset). *)
Theorem convertSvgToRaster_busy_flag
    (fmt : Format) (env : RasterEnv) (st : AppState) (w : Browser) :
  fileContent st <> "" -> conversionMode st = SvgToRaster ->
  isConverting (convertSvgToRaster fmt env st w).1 = negb (ctx_ok env).
Proof.
  intros Hc Hm. destruct (ctx_ok env) eqn:Hx.
  - now rewrite (convertSvgToRaster_raises fmt env st w Hc Hm Hx).
  - apply eqb_nonempty in Hc.
    unfold convertSvgToRaster. rewrite Hc, Hm, Hx. reflexivity.
Qed.

Lemma convertSvgToRaster_busy_flag_witness :
  isConverting (convertSvgToRaster Png hostNoContext svgLoaded freshBrowser).1
  = true
  /\ isConverting (convertSvgToRaster Png hostOk svgLoaded freshBrowser).1
     = false.
Proof.
  split.
  - refine (convertSvgToRaster_busy_flag Png hostNoContext svgLoaded
              freshBrowser _ eq_refl).
    simpl. congruence.
  - reflexivity.
Defined.

(** X13: a raster-to-vector conversion of [src/unnamed/part_000] that
    passes its guard never reaches the tracer: it logs one error, clears
    the busy flag, and leaves the artifact list, the extracted paths and
    the store of object URLs as they were, whatever the host answers. *)
Theorem convertRasterToSvg_never_traces
    (parse : string -> Node) (env : TraceEnv) (st : AppState) (w : Browser) :
  fileContent st <> "" -> conversionMode st = RasterToSvg ->
  let r := convertRasterToSvg parse env st w in
  convertedFiles r.1 = convertedFiles st
  /\ extractedPaths r.1 = extractedPaths st
  /\ isConverting r.1 = false
  /\ urls r.2 = urls w /\ next_url r.2 = next_url w
  /\ log r.2 = log w ++ [ConsoleError].
Proof.
  intros Hc Hm r. unfold r.
  rewrite (convertRasterToSvg_raises parse env st w Hc Hm).
  repeat split.
Qed.

Lemma convertRasterToSvg_never_traces_witness :
  let r := convertRasterToSvg (fun _ => mixedDoc) (mkTraceEnv (Some black8) true)
             (setIsConverting true pngLoaded) twoUrls in
  convertedFiles r.1 = [mkConverted "old.png" 7%nat "PNG"]
  /\ isConverting r.1 = false
  /\ urls r.2 = urls twoUrls.
Proof.
  intros r.
  destruct (convertRasterToSvg_never_traces
              (fun _ => mixedDoc) (mkTraceEnv (Some black8) true)
              (setIsConverting true pngLoaded) twoUrls)
    as (H1 & _ & H3 & H4 & _); [simpl; congruence | reflexivity |].
  split; [exact H1|]. split; [exact H3 | exact H4].
Defined.

(** ** The canvas of [src/src/App.tsx] *)

(** X14: in [src/src/App.tsx], when the image loads, the canvas is filled
    with white before the image is drawn for JPEG, and is not filled at all
    for PNG; in both cases the image is drawn at the configured size. *)
Theorem app_raster_fill_rule
    (fmt : Format) (env : App.RasterEnv) (st : App.AppState) (w : Browser) :
  App.svgContent st <> "" ->
  App.ctx_ok env = true -> App.image_loaded env = true ->
  exists before after,
    log (App.convertToFormat fmt env st w).2
    = log w ++ before
        ++ DrawImage (Some (App.width st)) (Some (App.height st)) :: after
    /\ (forall w0 h0, FillWhite w0 h0 ∉ after)
    /\ match fmt with
       | Jpeg => before = [CreateObjectURL (next_url w);
                           FillWhite (App.width st) (App.height st)]
       | Png => before = [CreateObjectURL (next_url w)]
       end.
Proof.
  intros Hc Hx Hl.
  rewrite (convertToFormat_loaded fmt env st w Hc Hx Hl).
  set (u := next_url w).
  set (tail := match App.encoded env with
               | Some _ => [CreateObjectURL (S u)]
               | None => []
               end).
  exists (CreateObjectURL u
          :: match fmt with
             | Jpeg => [FillWhite (App.width st) (App.height st)]
             | Png => []
             end),
    (ToBlob (match fmt with Png => "image/png" | Jpeg => "image/jpeg" end)
            (App.quality st)
     :: RevokeObjectURL u :: tail).
  split; [|split].
  - unfold App.raster_encoded, createObjectURL, canvas_ops, tail.
    destruct (App.encoded env) as [b|]; destruct fmt;
      cbn [snd log next_url app]; rewrite <- ?app_assoc; reflexivity.
  - intros w0 h0 Hin. unfold tail in Hin.
    destruct (App.encoded env);
      repeat (apply elem_of_cons in Hin as [Hin | Hin]; [discriminate|]);
      now apply elem_of_nil in Hin.
  - destruct fmt; reflexivity.
Qed.

Lemma app_raster_fill_rule_witness :
  exists before after,
    log (App.convertToFormat Jpeg appHostOk appLoaded freshBrowser).2
    = log freshBrowser ++ before
        ++ DrawImage (Some 800) (Some 600) :: after
    /\ (forall w0 h0, FillWhite w0 h0 ∉ after)
    /\ before = [CreateObjectURL 0%nat; FillWhite 800 600].
Proof.
  refine (app_raster_fill_rule Jpeg appHostOk appLoaded freshBrowser
            _ eq_refl eq_refl).
  simpl. congruence.
Defined.

(** ** Object URLs in [src/src/App.tsx] *)

Lemma live_create (b : Blob) (w : Browser) :
  live (createObjectURL b w).2 = {[ next_url w ]} ∪ live w.
Proof. unfold live, createObjectURL. cbn [snd urls]. apply dom_insert_L. Qed.

Lemma wf_create (b : Blob) (w : Browser) :
  wf_browser w -> wf_browser (createObjectURL b w).2.
Proof.
  intros Hwf u Hu. rewrite live_create in Hu.
  unfold createObjectURL. cbn [snd next_url].
  apply elem_of_union in Hu as [Hu | Hu].
  - apply elem_of_singleton in Hu. lia.
  - apply Hwf in Hu. lia.
Qed.

(** Revoking the handle just allocated gives back the live set from before
    the allocation. *)
Lemma live_create_revoke (b : Blob) (w : Browser) :
  wf_browser w ->
  live (revokeObjectURL (next_url w) (createObjectURL b w).2) = live w.
Proof.
  intros Hwf. unfold live, revokeObjectURL, createObjectURL. cbn [snd urls].
  rewrite delete_insert_id; [reflexivity|].
  apply not_elem_of_dom. intros Hu. apply Hwf in Hu. lia.
Qed.

(** What a conversion of [src/src/App.tsx] does to the store of object
    URLs and to the artifact list, whatever its outcome. *)
Lemma app_raster_live (fmt : Format) (env : App.RasterEnv)
    (st : App.AppState) (w : Browser) :
  wf_browser w ->
  let r := App.convertToFormat fmt env st w in
  wf_browser r.2
  /\ live w ⊆ live r.2
  /\ (App.convertedFiles r.1 = App.convertedFiles st
      \/ ((S (next_url w) ∈ live r.2)
          /\ App.convertedFiles r.1
             = App.replace_format fmt
                 (mkConverted (App.raster_name fmt st) (S (next_url w))
                              (Js.toUpperCase (format_string fmt)))
                 (App.convertedFiles st))).
Proof.
  intros Hwf r. unfold r, App.convertToFormat.
  destruct (String.eqb (App.svgContent st) "");
    [cbn [fst snd]; split; [exact Hwf|]; split; [reflexivity | now left]|].
  destruct (App.ctx_ok env); cbn [negb fst snd];
    [|split; [exact Hwf|]; split; [reflexivity | now left]].
  set (b := mkBlob _ _).
  pose proof (wf_create b w Hwf) as Hwf1.
  pose proof (live_create b w) as Hl1.
  pose proof (live_create_revoke b w Hwf) as Hl2.
  destruct (createObjectURL b w) as [u w1] eqn:Hcr.
  assert (Hu : u = next_url w) by (now injection Hcr as <- _).
  assert (Hn1 : next_url w1 = S (next_url w)) by (now injection Hcr as _ <-).
  cbn [snd] in Hwf1, Hl1, Hl2. subst u.
  destruct (App.image_loaded env); cbn [fst snd];
    [|split; [exact Hwf1|]; split;
      [rewrite Hl1; apply union_subseteq_r | now left]].
  unfold App.raster_onload.
  set (w2 := revokeObjectURL _ _).
  assert (Hlive2 : live w2 = live w).
  { rewrite <- Hl2. unfold w2, live, revokeObjectURL, emit.
    destruct fmt; reflexivity. }
  assert (Hn2 : next_url w2 = S (next_url w)).
  { unfold w2, revokeObjectURL, emit. destruct fmt; exact Hn1. }
  assert (Hwf2 : wf_browser w2).
  { intros u Hu. rewrite Hlive2 in Hu. apply Hwf in Hu. lia. }
  unfold App.raster_encoded. destruct (App.encoded env) as [blob|].
  - pose proof (wf_create blob w2 Hwf2) as Hwf3.
    pose proof (live_create blob w2) as Hl3.
    assert (Hu3 : (createObjectURL blob w2).1 = S (next_url w)) by exact Hn2.
    destruct (createObjectURL blob w2) as [u3 w3].
    cbn [fst snd] in *. subst u3. rewrite Hl3, Hlive2, Hn2.
    split; [exact Hwf3|]. split; [apply union_subseteq_r|].
    right. split; [|reflexivity].
    apply elem_of_union. left. now apply elem_of_singleton.
  - cbn [fst snd]. split; [exact Hwf2|]. split; [now rewrite Hlive2|].
    now left.
Qed.

(** X15: a conversion of [src/src/App.tsx] never releases an object URL
    that was live before it started, whatever its outcome: the handles of
    the artifacts made so far stay allocated. *)
Theorem app_conversion_keeps_live_urls
    (fmt : Format) (env : App.RasterEnv) (st : App.AppState) (w : Browser) :
  wf_browser w ->
  wf_browser (App.convertToFormat fmt env st w).2
  /\ live w ⊆ live (App.convertToFormat fmt env st w).2.
Proof.
  intros Hwf. destruct (app_raster_live fmt env st w Hwf) as (H1 & H2 & _).
  split; assumption.
Qed.

(** X16: in [src/src/App.tsx] every artifact of the list points at a live
    object URL, and a conversion keeps it so, whatever its outcome: a
    listed download link never dangles. *)
Theorem app_artifacts_stay_live
    (fmt : Format) (env : App.RasterEnv) (st : App.AppState) (w : Browser) :
  wf_browser w -> artifacts_live (App.convertedFiles st) w ->
  artifacts_live (App.convertedFiles (App.convertToFormat fmt env st w).1)
                 (App.convertToFormat fmt env st w).2.
Proof.
  intros Hwf Hlive.
  destruct (app_raster_live fmt env st w Hwf) as (_ & Hsub & [-> | [Hnew ->]]);
    intros f Hf.
  - apply Hsub, Hlive, Hf.
  - unfold App.replace_format in Hf.
    apply elem_of_app in Hf as [Hf | Hf].
    + apply list_elem_of_filter in Hf as [_ Hf]. apply Hsub, Hlive, Hf.
    + apply list_elem_of_singleton in Hf. subst f. exact Hnew.
Qed.

(** ** The updater of [src/unnamed/part_000], as written *)

Lemma format_filter_NoDup (tag : string) (l : list ConvertedFile) :
  NoDup (format <$> l) ->
  NoDup (format <$> filter (fun f => format f <> tag) l)
  /\ tag ∉ format <$> filter (fun f => format f <> tag) l.
Proof.
  intros Hnd. split.
  - eapply sublist_NoDup; [exact Hnd|].
    apply fmap_sublist, sublist_filter.
  - intros Hin. apply list_elem_of_fmap in Hin as (f & Htag & Hf).
    apply list_elem_of_filter in Hf as [Hne _]. congruence.
Qed.

(** X17: the updater that [convertSvgToRaster] of [src/unnamed/part_000]
    hands to [setConvertedFiles], taken as a function on lists: applied
    with a new artifact of an encoding, it leaves exactly one artifact of
    that encoding, the new one, keeps the artifacts of the other encodings
    as they were and in their order, and never makes two artifacts share a
    format.  (The filter of [src/src/App.tsx] does not have this property,
    see [app_replace_format_appends].) *)
Theorem replace_format_replaces
    (fmt : Format) (new : ConvertedFile) (prev : list ConvertedFile) :
  format new = Js.toUpperCase (format_string fmt) ->
  let tag := Js.toUpperCase (format_string fmt) in
  with_format tag (replace_format fmt new prev) = [new]
  /\ without_format tag (replace_format fmt new prev)
     = without_format tag prev
  /\ (NoDup (format <$> prev) ->
      NoDup (format <$> replace_format fmt new prev)).
Proof.
  intros Hn tag. split; [now apply replace_format_with|].
  split; [now apply replace_format_without|].
  intros Hnd. unfold replace_format. rewrite fmap_app.
  destruct (format_filter_NoDup tag _ Hnd) as [Hf Hno].
  apply NoDup_app. split; [exact Hf|]. split; [|apply NoDup_singleton].
  intros t Ht Ht'. cbn in Ht'.
  apply list_elem_of_singleton in Ht'. subst t. rewrite Hn in Ht.
  exact (Hno Ht).
Qed.

Lemma replace_format_replaces_witness :
  replace_format Png (mkConverted "logo.png" 3%nat "PNG")
    [mkConverted "logo.png" 0%nat "PNG"; mkConverted "logo.jpeg" 1%nat "JPEG"]
  = [mkConverted "logo.jpeg" 1%nat "JPEG"; mkConverted "logo.png" 3%nat "PNG"]
  /\ with_format "PNG"
       (replace_format Png (mkConverted "logo.png" 3%nat "PNG")
          [mkConverted "logo.png" 0%nat "PNG";
           mkConverted "logo.jpeg" 1%nat "JPEG"])
     = [mkConverted "logo.png" 3%nat "PNG"].
Proof.
  split; [reflexivity|].
  exact (proj1 (replace_format_replaces Png (mkConverted "logo.png" 3%nat "PNG")
                  [mkConverted "logo.png" 0%nat "PNG";
                   mkConverted "logo.jpeg" 1%nat "JPEG"] eq_refl)).
Defined.

(** ** File names *)

Lemma substring_all (s : string) : String.substring 0 (String.length s) s = s.
Proof. induction s as [|c s IH]; simpl; [reflexivity | now rewrite IH]. Qed.

Lemma substring_none (s : string) (n : nat) : String.substring n 0 s = "".
Proof.
  revert n. induction s as [|c s IH]; intros [|n]; simpl; try reflexivity.
  apply IH.
Qed.

Lemma substring_skip (a b : string) (j m : nat) :
  String.substring (String.length a + j) m (a +:+ b) = String.substring j m b.
Proof. induction a as [|c a IH]; [reflexivity | exact IH]. Qed.

Lemma substring_take (a b : string) :
  String.substring 0 (String.length a) (a +:+ b) = a.
Proof.
  induction a as [|c a IH]; [apply substring_none|].
  change (String c (String.substring 0 (String.length a) (a +:+ b))
          = String c a).
  now rewrite IH.
Qed.

Lemma map_string_append (f : ascii -> ascii) (s t : string) :
  Js.map_string f (s +:+ t) = Js.map_string f s +:+ Js.map_string f t.
Proof.
  induction s as [|c s IH]; [reflexivity|].
  change (String (f c) (Js.map_string f (s +:+ t))
          = String (f c) (Js.map_string f s +:+ Js.map_string f t)).
  now rewrite IH.
Qed.

Lemma map_string_length (f : ascii -> ascii) (s : string) :
  String.length (Js.map_string f s) = String.length s.
Proof. induction s as [|c s IH]; simpl; [reflexivity | now rewrite IH]. Qed.

Lemma map_string_substring (f : ascii -> ascii) (s : string) :
  forall i k, Js.map_string f (String.substring i k s)
              = String.substring i k (Js.map_string f s).
Proof.
  induction s as [|c s IH]; intros [|i] [|k]; simpl; try reflexivity.
  - now rewrite IH.
  - apply IH.
  - apply IH.
Qed.

(** The last characters of a string that ends with [t]. *)
Lemma endsWith_tail (a t suffix : string) :
  (String.length suffix <= String.length t)%nat ->
  Js.endsWith (a +:+ t) suffix = Js.endsWith t suffix.
Proof.
  intros Hk. unfold Js.endsWith. rewrite length_append.
  replace (String.length suffix <=? String.length a + String.length t)%nat
    with true by (symmetry; apply Nat.leb_le; lia).
  replace (String.length suffix <=? String.length t)%nat
    with true by (symmetry; now apply Nat.leb_le).
  replace (String.length a + String.length t - String.length suffix)%nat
    with (String.length a + (String.length t - String.length suffix))%nat by lia.
  now rewrite substring_skip.
Qed.

Lemma replace_first_extension (by_ stem : string) :
  count_char "." stem = 0%nat ->
  Js.replace_first ".svg" by_ (stem +:+ ".svg") = stem +:+ by_.
Proof.
  intros Hdot. induction stem as [|c stem IH].
  - cbn. apply append_empty_r.
  - cbn [count_char] in Hdot.
    destruct (Ascii.eqb c ".") eqn:Hc; [discriminate|].
    apply Ascii.eqb_neq in Hc.
    change (String c stem +:+ ".svg") with (String c (stem +:+ ".svg")).
    cbn [Js.replace_first String.prefix].
    destruct (ascii_dec "." c) as [E | _]; [congruence|].
    change (String c (Js.replace_first ".svg" by_ (stem +:+ ".svg"))
            = String c (stem +:+ by_)).
    rewrite IH; [reflexivity | exact Hdot].
Qed.

(** X18: for an uploaded file called [stem.svg], the stem holding no dot, the
    raster artifact is called [stem.png] or [stem.jpeg]. *)
Theorem raster_name_swaps_extension
    (fmt : Format) (st : AppState) (f : File) (stem : string) :
  uploadedFile st = Some f ->
  file_name f = stem +:+ ".svg" ->
  count_char "." stem = 0%nat ->
  raster_name fmt st = stem +:+ "." +:+ format_string fmt.
Proof.
  intros Hf Hn Hdot. unfold raster_name. rewrite Hf, Hn.
  now apply replace_first_extension.
Qed.

Lemma raster_name_swaps_extension_witness :
  raster_name Jpeg svgLoaded = "logo" +:+ "." +:+ format_string Jpeg.
Proof.
  exact (raster_name_swaps_extension Jpeg svgLoaded
           (mkFile "logo.svg" "image/svg+xml") "logo"
           eq_refl eq_refl eq_refl).
Defined.

(** X19: a name that ends in [.png], [.jpg] or [.jpeg], in any letter case,
    has that extension replaced by [.svg]; the rest of the name is kept. *)
Theorem svg_name_swaps_extension (stem ext : string) :
  Js.toLowerCase ext ∈ [".png"; ".jpg"; ".jpeg"] ->
  svg_name_of (stem +:+ ext) = stem +:+ ".svg".
Proof.
  intros Hext. unfold svg_name_of.
  unfold Js.toLowerCase in *. rewrite map_string_append, length_append.
  assert (Hlen : String.length ext
                 = String.length (Js.map_string Js.lower_ascii ext))
    by (symmetry; apply map_string_length).
  repeat (apply elem_of_cons in Hext as [Hext | Hext]);
    [ | | | now apply elem_of_nil in Hext];
    rewrite Hext in *; cbn [String.length] in Hlen;
    rewrite !endsWith_tail by (simpl; lia); cbn [orb];
    [ replace (Js.endsWith ".png" ".png") with true by reflexivity
    | replace (Js.endsWith ".jpg" ".png") with false by reflexivity;
      replace (Js.endsWith ".jpg" ".jpg") with true by reflexivity
    | replace (Js.endsWith ".jpeg" ".png") with false by reflexivity;
      replace (Js.endsWith ".jpeg" ".jpg") with false by reflexivity;
      replace (Js.endsWith ".jpeg" ".jpeg") with true by reflexivity ];
    cbn [orb]; rewrite Hlen;
    [ replace (String.length stem + 4 - 4)%nat with (String.length stem) by lia
    | replace (String.length stem + 4 - 4)%nat with (String.length stem) by lia
    | replace (String.length stem + 5 - 5)%nat with (String.length stem) by lia ];
    now rewrite substring_take.
Qed.

Lemma svg_name_swaps_extension_witness :
  svg_name_of ("holiday.photo" +:+ ".JPeG") = "holiday.photo" +:+ ".svg".
Proof.
  apply (svg_name_swaps_extension "holiday.photo" ".JPeG").
  vm_compute. right. right. left.
Defined.

(** ** Uploading and dropping files *)

Import ConverterUpload.

(** X20: every upload sets the uploaded file and empties the artifact list,
    whatever the kind of the file and whether or not it can be read; the
    paths shown afterwards are those of a readable SVG, and none
    otherwise. *)
Theorem upload_clears_artifacts
    (parse : string -> Node) (read : File -> FileHost) (file : File)
    (st : AppState) :
  let st' := handleFileUpload parse read file st in
  uploadedFile st' = Some file
  /\ convertedFiles st' = []
  /\ extractedPaths st'
     = match file_text (read file) with
       | Some content =>
           if isSvgFile file then extractPaths parse content else []
       | None => []
       end.
Proof.
  intros st'. unfold st', handleFileUpload.
  destruct (isSvgFile file).
  - destruct (file_text (read file)); repeat split.
  - destruct (isRasterFile file); [destruct (data_url (read file))|];
      destruct (file_text (read file)); repeat split.
Qed.

(** X21: a file that is neither an SVG nor of an [image/] type replaces the
    uploaded file and empties the artifact list and the paths, but leaves
    the content and the mode of the previous upload in place: the page
    then shows the name of the new file over the content of the old
    one. *)
Theorem unrecognised_upload_keeps_content
    (parse : string -> Node) (read : File -> FileHost) (file : File)
    (st : AppState) :
  isSvgFile file = false -> isRasterFile file = false ->
  let st' := handleFileUpload parse read file st in
  uploadedFile st' = Some file
  /\ fileContent st' = fileContent st
  /\ conversionMode st' = conversionMode st
  /\ convertedFiles st' = []
  /\ extractedPaths st' = [].
Proof.
  intros Hs Hr st'. unfold st', handleFileUpload. rewrite Hs, Hr.
  repeat split.
Qed.

Lemma unrecognised_upload_keeps_content_witness :
  droppable untypedPng = true
  /\ uploadedFile (handleFileUpload (fun _ => mixedDoc) (readsAs "x")
                                    untypedPng svgLoaded)
     = Some untypedPng
  /\ fileContent (handleFileUpload (fun _ => mixedDoc) (readsAs "x")
                                   untypedPng svgLoaded)
     = "<svg/>".
Proof.
  split; [reflexivity|].
  destruct (unrecognised_upload_keeps_content
              (fun _ => mixedDoc) (readsAs "x") untypedPng svgLoaded
              eq_refl eq_refl)
    as (H1 & H2 & _).
  split; [exact H1 | exact H2].
Defined.

(** X22: after the upload of a readable, non-empty SVG file, whatever the
    state before, the paths shown are those of the file and the mode is
    vector-to-raster; a conversion in the other direction does nothing at
    all, and a vector-to-raster conversion produces no artifact and
    allocates no object URL, whatever the host answers. *)
Theorem svg_upload_then_convert
    (parse : string -> Node) (read : File -> FileHost) (file : File)
    (content : string) (fmt : Format) (env : RasterEnv)
    (tenv : TraceEnv) (st : AppState) (w : Browser) :
  isSvgFile file = true ->
  file_text (read file) = Some content -> content <> "" ->
  let st' := handleFileUpload parse read file st in
  extractedPaths st' = extractPaths parse content
  /\ fileContent st' = content
  /\ conversionMode st' = SvgToRaster
  /\ convertRasterToSvg parse tenv st' w = (st', w)
  /\ convertedFiles (convertSvgToRaster fmt env st' w).1 = []
  /\ urls (convertSvgToRaster fmt env st' w).2 = urls w.
Proof.
  intros Hs Ht Hc st'.
  assert (Hst : st' = setExtractedPaths (extractPaths parse content)
                        (setFileContent content
                           (setConversionMode SvgToRaster
                              (setExtractedPaths []
                                 (setConvertedFiles (fun _ => [])
                                    (setUploadedFile (Some file) st)))))).
  { unfold st', handleFileUpload. now rewrite Hs, Ht. }
  split; [now rewrite Hst|]. split; [now rewrite Hst|].
  split; [now rewrite Hst|]. split.
  - unfold convertRasterToSvg. rewrite Hst. cbn [conversionMode fileContent
      setExtractedPaths setFileContent setConversionMode is_mode negb].
    now rewrite orb_true_r.
  - destruct (convertSvgToRaster_cases fmt env st' w) as [-> | [-> | ->]];
      rewrite Hst; split; reflexivity.
Qed.

Lemma svg_upload_then_convert_witness :
  convertedFiles
    (convertSvgToRaster Jpeg hostOk
       (handleFileUpload (fun _ => mixedDoc) (readsAs "<svg/>")
                         (mkFile "Logo.SVG" "") pngLoaded)
       freshBrowser).1
  = []
  /\ extractedPaths
       (handleFileUpload (fun _ => mixedDoc) (readsAs "<svg/>")
                         (mkFile "Logo.SVG" "") pngLoaded)
     = ["M 0 0 L 1 1 Z"; "M 2 2 Z"].
Proof.
  destruct (svg_upload_then_convert
              (fun _ => mixedDoc) (readsAs "<svg/>")
              (mkFile "Logo.SVG" "") "<svg/>" Jpeg hostOk
              (mkTraceEnv None true) pngLoaded freshBrowser
              eq_refl eq_refl)
    as (H1 & _ & _ & _ & H5 & _); [congruence|].
  split; [exact H5|]. rewrite H1. reflexivity.
Defined.

(** X23: of the files dropped together only the first acceptable one is
    uploaded; the files before it are skipped and those after it ignored.
    When none is acceptable, only the dragging flag changes. *)
Theorem handleDrop_takes_first
    (parse : string -> Node) (read : File -> FileHost)
    (skipped : list File) (file : File) (ignored : list File) (st : AppState) :
  Forall (fun f => droppable f = false) skipped ->
  (droppable file = true ->
   handleDrop parse read (skipped ++ file :: ignored) st
   = handleFileUpload parse read file (setIsDragging false st))
  /\ handleDrop parse read skipped st = setIsDragging false st.
Proof.
  intros Hskip. unfold handleDrop.
  assert (Hfind : forall rest,
             List.find droppable (skipped ++ rest) = List.find droppable rest).
  { intros rest. induction Hskip as [|f l Hf _ IH]; [reflexivity|].
    simpl. now rewrite Hf. }
  split.
  - intros Hd. rewrite Hfind. simpl. now rewrite Hd.
  - rewrite <- (app_nil_r skipped), Hfind. reflexivity.
Qed.

Lemma handleDrop_takes_first_witness :
  uploadedFile
    (handleDrop (fun _ => mixedDoc) (readsAs "<svg/>")
       ([mkFile "notes.txt" "text/plain"]
        ++ mkFile "logo.svg" "image/svg+xml" :: [mkFile "photo.png" "image/png"])
       initialState)
  = Some (mkFile "logo.svg" "image/svg+xml").
Proof.
  destruct (handleDrop_takes_first (fun _ => mixedDoc) (readsAs "<svg/>")
              [mkFile "notes.txt" "text/plain"]
              (mkFile "logo.svg" "image/svg+xml")
              [mkFile "photo.png" "image/png"] initialState)
    as [H _]; [repeat constructor|].
  rewrite (H eq_refl). reflexivity.
Defined.

(** X24: after a switch of mode nothing is loaded: either conversion leaves
    the component and the browser untouched, whatever the host answers. *)
Theorem switchMode_disarms_conversions
    (m : ConversionMode) (fmt : Format) (renv : RasterEnv)
    (parse : string -> Node) (tenv : TraceEnv) (st : AppState) (w : Browser) :
  convertSvgToRaster fmt renv (switchMode m st) w = (switchMode m st, w)
  /\ convertRasterToSvg parse tenv (switchMode m st) w = (switchMode m st, w)
  /\ convertedFiles (switchMode m st) = []
  /\ uploadedFile (switchMode m st) = None.
Proof. repeat split. Qed.

(** ** The component of [src/src/App.tsx] *)

Lemma endsWith_lower (name suffix : string) :
  Js.toLowerCase suffix = suffix ->
  Js.endsWith name suffix = true ->
  Js.endsWith (Js.toLowerCase name) suffix = true.
Proof.
  unfold Js.endsWith, Js.toLowerCase. intros Hs H.
  apply andb_prop in H as [Hk He]. apply String.eqb_eq in He.
  rewrite map_string_length, Hk. cbn [andb]. apply String.eqb_eq.
  now rewrite <- map_string_substring, He.
Qed.

(** X25: every file that the drop zone of [src/src/App.tsx] accepts is also
    accepted by the drop zone of [src/unnamed/part_000], which treats it as
    an SVG. *)
Theorem app_drop_filter_is_stricter (file : File) :
  AppUpload.droppable file = true ->
  isSvgFile file = true /\ droppable file = true.
Proof.
  unfold AppUpload.droppable, isSvgFile, droppable, has_image_extension.
  intros H. apply orb_prop in H as [H | H].
  - rewrite H. cbn [orb]. split; [reflexivity|].
    apply String.eqb_eq in H. rewrite H. reflexivity.
  - apply (endsWith_lower _ ".svg" eq_refl) in H. rewrite H.
    split; [apply orb_true_r|]. cbn [orb]. apply orb_true_r.
Qed.

Lemma app_drop_filter_is_stricter_witness :
  isSvgFile (mkFile "logo.svg" "") = true
  /\ droppable (mkFile "logo.svg" "") = true.
Proof. exact (app_drop_filter_is_stricter (mkFile "logo.svg" "") eq_refl). Defined.

(** X26: in [src/src/App.tsx] every successful conversion appends its
    artifact to the list: nothing the component made is ever replaced, and
    the list grows by one. *)
Theorem app_conversions_accumulate
    (fmt : Format) (env : App.RasterEnv) (blob : Blob)
    (st : App.AppState) (w : Browser) :
  Forall (fun f => format f = "PNG" \/ format f = "JPEG")
         (App.convertedFiles st) ->
  App.svgContent st <> "" ->
  App.ctx_ok env = true -> App.image_loaded env = true ->
  App.encoded env = Some blob ->
  let st' := (App.convertToFormat fmt env st w).1 in
  App.convertedFiles st'
  = App.convertedFiles st
    ++ [mkConverted (App.raster_name fmt st) (S (next_url w))
                    (Js.toUpperCase (format_string fmt))]
  /\ Forall (fun f => format f = "PNG" \/ format f = "JPEG")
            (App.convertedFiles st').
Proof.
  intros Htags Hc Hx Hl He st'.
  assert (H : App.convertedFiles st'
              = App.convertedFiles st
                ++ [mkConverted (App.raster_name fmt st) (S (next_url w))
                                (Js.toUpperCase (format_string fmt))]).
  { unfold st'. rewrite (convertToFormat_loaded fmt env st w Hc Hx Hl).
    unfold App.raster_encoded. rewrite He.
    cbn [fst App.convertedFiles App.setIsConverting App.setConvertedFiles
         createObjectURL next_url].
    now apply app_replace_format_appends. }
  split; [exact H|]. rewrite H. apply Forall_app. split; [exact Htags|].
  apply Forall_singleton. destruct fmt; [now left | now right].
Qed.

Lemma app_conversions_accumulate_witness :
  App.convertedFiles (App.convertToFormat Jpeg appHostOk appLoaded freshBrowser).1
  = App.convertedFiles appLoaded
    ++ [mkConverted (App.raster_name Jpeg appLoaded) 1%nat "JPEG"].
Proof.
  refine (proj1 (app_conversions_accumulate Jpeg appHostOk pngBlob appLoaded
                   freshBrowser _ _ eq_refl eq_refl eq_refl)).
  - constructor.
  - simpl. congruence.
Defined.

(** ** The path extractor, again *)

(** X27: a string is returned by the extractor exactly when it is not empty
    and is the geometry attribute of some path element of the document;
    in particular the extractor never returns an empty string. *)
Theorem extractPaths_membership
    (parse : string -> Node) (svgContent s : string) :
  s ∈ extractPaths parse svgContent
  <-> s <> ""
      /\ exists n, n ∈ querySelectorAll "path" (parse svgContent)
                   /\ getAttribute "d" n = Some s.
Proof.
  rewrite extractPaths_spec, list_elem_of_filter, list_elem_of_omap.
  reflexivity.
Qed.

(** ** Instances *)

Lemma wf_twoUrls : wf_browser twoUrls.
Proof.
  intros u Hu. unfold live, twoUrls in Hu. cbn [urls] in Hu.
  rewrite !dom_insert_L, dom_empty_L in Hu. change (u < 2)%nat.
  apply elem_of_union in Hu as [Hu | Hu];
    [apply elem_of_singleton in Hu; lia|].
  apply elem_of_union in Hu as [Hu | Hu];
    [apply elem_of_singleton in Hu; lia|].
  now apply not_elem_of_empty in Hu.
Qed.

Lemma live_twoArtifacts :
  artifacts_live (App.convertedFiles twoArtifacts) twoUrls.
Proof.
  intros f Hf. unfold live, twoUrls. cbn [urls].
  rewrite !dom_insert_L. cbn in Hf.
  apply elem_of_cons in Hf as [-> | Hf];
    [apply elem_of_union; left; now apply elem_of_singleton|].
  apply list_elem_of_singleton in Hf. subst f.
  apply elem_of_union. right. apply elem_of_union. left.
  now apply elem_of_singleton.
Qed.

Lemma traced_black8 :
  points (traced black8 8 8 128 0 0 ∅) = [(0, 0); (4, 4); (4, 0); (0, 4)].
Proof. vm_compute. reflexivity. Qed.

Lemma tracePath_marks_collected_witness :
  tracePath 0 0 black8 8 8 128 ∅
  = ("M 0 0 L 4 4 L 4 0 L 0 4 Z",
     ∅ ∪ list_to_set [(0, 0); (4, 4); (4, 0); (0, 4)]).
Proof.
  destruct (tracePath_marks_collected black8 8 8 128 0 0 ∅) as (H & _ & _).
  rewrite H, traced_black8. reflexivity.
Defined.

Lemma tracePath_points_dark_in_bounds_witness :
  0 <= 4 < 8 /\ 0 <= 4 < 8
  /\ forall r g b,
       data_at (data black8) ((4 * 8 + 4) * 4) = Some r ->
       data_at (data black8) ((4 * 8 + 4) * 4 + 1) = Some g ->
       data_at (data black8) ((4 * 8 + 4) * 4 + 2) = Some b ->
       r + g + b < 3 * 128.
Proof.
  apply (tracePath_points_dark_in_bounds black8 8 8 128 0 0 ∅ (4, 4)).
  rewrite traced_black8. right. left.
Defined.

Lemma tracePath_points_on_lattice_witness :
  4 mod 4 = 0 mod 4 /\ 0 mod 4 = 0 mod 4.
Proof.
  apply (tracePath_points_on_lattice black8 8 8 128 0 0 ∅ (4, 0)).
  rewrite traced_black8. right. right. left.
Defined.

Lemma tracePath_starts_at_seed_witness :
  exists rest, points (traced black8 8 8 128 4 4 ∅) = (4, 4) :: rest.
Proof.
  apply (tracePath_starts_at_seed black8 8 8 128 4 4 0 0 0 ∅);
    [apply not_elem_of_empty | lia | lia | reflexivity | reflexivity
    | reflexivity | lia].
Defined.

Lemma tracePath_rejected_seed_witness :
  tracePath 8 0 black8 8 8 128 ∅ = ("", ∅).
Proof.
  apply (tracePath_rejected_seed black8 8 8 128 8 0 ∅).
  right. left. intros [Hx _]. simpl in Hx. lia.
Defined.

Lemma tracePath_region_connected_witness :
  exists p, p ∈ [(0, 0); (4, 4)] /\ (4, 0) ∈ neighbors p.1 p.2.
Proof.
  apply (tracePath_region_connected black8 8 8 128 0 0 ∅
           [(0, 0); (4, 4)] [(0, 4)] (4, 0)).
  - apply traced_black8.
  - discriminate.
Defined.

Lemma convertImageDataToSvg_regions_witness :
  exists rs : list region,
    convertImageDataToSvg initialState black8 8 8
    = svg_document 8 8 (render_regions rs)
    /\ NoDup (concat rs.*1).
Proof.
  destruct (convertImageDataToSvg_regions initialState black8 8 8)
    as (rs & H & _ & Hnd & _).
  exists rs. split; [exact H | exact Hnd].
Defined.

Lemma Forall_all_transparent (d : list byte) :
  Forall (fun b => Z.of_N (Byte.to_N b) <= 128) d -> all_transparent d.
Proof.
  intros H i b Hi _. rewrite Forall_forall in H.
  apply H. eapply list_elem_of_lookup_2. exact Hi.
Qed.

Lemma transparent_buffer_has_no_paths_witness :
  convertImageDataToSvg initialState faint8 8 8 = svg_document 8 8 "".
Proof.
  apply (transparent_buffer_has_no_paths initialState faint8 8 8).
  apply Forall_all_transparent. simpl. repeat constructor; discriminate.
Defined.

Lemma app_conversion_keeps_live_urls_witness :
  live twoUrls
  ⊆ live (App.convertToFormat Png appHostOk twoArtifacts twoUrls).2.
Proof.
  exact (proj2 (app_conversion_keeps_live_urls
                  Png appHostOk twoArtifacts twoUrls wf_twoUrls)).
Defined.

Lemma app_artifacts_stay_live_witness :
  artifacts_live
    (App.convertedFiles (App.convertToFormat Png appHostOk twoArtifacts twoUrls).1)
    (App.convertToFormat Png appHostOk twoArtifacts twoUrls).2.
Proof.
  exact (app_artifacts_stay_live Png appHostOk twoArtifacts twoUrls
           wf_twoUrls live_twoArtifacts).
Defined.
